(** * Trading_Bot: paper-trading ledger, reporting, Alor market-data client
      and breakout strategy

    A shallow embedding of [src/paper_trader.py], [src/reporting.py],
    [src/alor_client.py] and the breakout strategy of
    [src/strategies.py].

    Numbers.  The Python code computes with [float]; the specification
    speaks of reals.  In [PaperTrader] and [Reporting] amounts are exact
    rationals [Q], the reading of the code on numbers: rounding,
    infinities and NaN are outside it, and Python's comparison operators
    become the boolean tests on [Q] below.  [FloatTrader] embeds the
    ledger a second time on IEEE doubles, which have all three; the
    properties that turn on them are stated there.

    Effects.  [PaperTrader] mutates its own fields, the [Position] objects
    stored in its dictionary, and appends to a CSV file.  The embedding
    threads one [Ledger] value (cash, positions, file) through a small
    state-and-exception monad: a raised exception carries the state reached
    when it was raised, exactly as a Python object keeps the mutations made
    before a [raise]. *)

From Stdlib Require Import QArith Qminmax Lqa ZArith Ascii String Floats.
From stdpp Require Import gmap strings list fin_maps.

Local Open Scope Q_scope.
Local Open Scope string_scope.

(** ** Comparisons on amounts *)

Definition Qlt_bool (a b : Q) : bool := negb (Qle_bool b a).
Definition Qgt_bool (a b : Q) : bool := Qlt_bool b a.
Definition Qge_bool (a b : Q) : bool := Qle_bool b a.

(** ** Results of calls that may raise *)

Inductive result (E A : Type) : Type :=
  | Ok (a : A)
  | Raise (e : E).
Arguments Ok {E A} a.
Arguments Raise {E A} e.

Module PaperTrader.

(** *** Data model ([paper_trader.py], lines 13-48) *)

Record Position := mkPosition {
  pos_symbol : string;
  pos_quantity : Q;
  pos_avg_price : Q;
  pos_stop_loss : option Q;
  pos_take_profit : option Q
}.

Record Order := mkOrder {
  ord_symbol : string;
  ord_side : string;
  ord_quantity : Q;
  ord_price : Q;
  ord_stop_loss : option Q;
  ord_take_profit : option Q;
  ord_timestamp : string
}.

(** [Position(symbol=s)]: the dataclass defaults. *)
Definition new_Position (s : string) : Position :=
  mkPosition s 0 0 None None.

(** Every exception of the ledger is a Python [ValueError]; the
    constructors stand for the distinct messages. *)
Inductive ValueError :=
  | QuantityNotPositive
  | PriceNotPositive
  | InsufficientFunds
  | InsufficientPosition
  | UnknownSide
  | StopNotBelowTake
  | InitialCashNotPositive.

(** A CSV cell: a numeric literal, or any other text. *)
Inductive cell :=
  | CNum (q : Q)
  | CStr (s : string).

Definition csv_row := list cell.

Definition log_header : csv_row :=
  [CStr "timestamp"; CStr "symbol"; CStr "side"; CStr "quantity";
   CStr "price"; CStr "stop_loss"; CStr "take_profit"; CStr "cash"].

(** The trader together with the file behind [_trades_log_path]:
    [None] when the file does not exist, otherwise its lines in order. *)
Record Ledger := mkLedger {
  cash : Q;
  positions : gmap string Position;
  trades_log : option (list csv_row)
}.

(** *** The state-and-exception monad *)

Definition M (A : Type) : Type := Ledger -> Ledger * result ValueError A.

Definition ret {A} (a : A) : M A := fun l => (l, Ok a).
Definition raise {A} (e : ValueError) : M A := fun l => (l, Raise e).
Definition bind {A B} (m : M A) (k : A -> M B) : M B :=
  fun l => match m l with
           | (l', Ok a) => k a l'
           | (l', Raise e) => (l', Raise e)
           end.

Notation "x <- m ;; k" := (bind m (fun x => k))
  (at level 100, m at next level, right associativity).
Notation "m ;; k" := (bind m (fun _ => k))
  (at level 100, right associativity).

Definition get_cash : M Q := fun l => (l, Ok (cash l)).
Definition set_cash (c : Q) : M unit :=
  fun l => (mkLedger c (positions l) (trades_log l), Ok tt).

(** [self.positions.setdefault(s, p)]: inserts [p] when [s] is unbound and
    returns the object now stored under [s]. *)
Definition positions_setdefault (s : string) (p : Position) : M Position :=
  fun l => match positions l !! s with
           | Some p0 => (l, Ok p0)
           | None => (mkLedger (cash l) (<[s := p]> (positions l)) (trades_log l), Ok p)
           end.

(** A write through the alias [position]: the object bound to the local
    variable is the one stored under [s], so the mutated object replaces
    the stored one. *)
Definition store_position (s : string) (p : Position) : M Position :=
  fun l => (mkLedger (cash l) (<[s := p]> (positions l)) (trades_log l), Ok p).

(** [self.positions.pop(s, None)]. *)
Definition positions_pop (s : string) : M unit :=
  fun l => (mkLedger (cash l) (delete s (positions l)) (trades_log l), Ok tt).

(** Opening the file in mode ["a"] creates it when absent. *)
Definition append_row (r : csv_row) : M unit :=
  fun l => (mkLedger (cash l) (positions l)
              (Some (match trades_log l with
                     | Some rows => (rows ++ [r])%list
                     | None => [r]
                     end)), Ok tt).

(** *** [Position.update] (lines 23-37) *)

Definition Position_update (p : Position) (side : string) (quantity price : Q)
  : result ValueError Position :=
  if String.eqb side "BUY" then
    let total_cost := pos_avg_price p * pos_quantity p + price * quantity in
    let q := pos_quantity p + quantity in
    if Qgt_bool q 0
    then Ok (mkPosition (pos_symbol p) q (total_cost / q)
               (pos_stop_loss p) (pos_take_profit p))
    else Ok (mkPosition (pos_symbol p) q (pos_avg_price p)
               (pos_stop_loss p) (pos_take_profit p))
  else if String.eqb side "SELL" then
    let q := pos_quantity p - quantity in
    if Qle_bool q 0
    then Ok (mkPosition (pos_symbol p) 0 0 None None)
    else Ok (mkPosition (pos_symbol p) q (pos_avg_price p)
               (pos_stop_loss p) (pos_take_profit p))
  else Raise UnknownSide.

Definition lift {A} (r : result ValueError A) : M A := fun l => (l, r).

(** *** [PaperTrader.__init__] and [_ensure_log_header] (lines 54-76) *)

Definition _ensure_log_header (file : option (list csv_row)) : option (list csv_row) :=
  match file with
  | Some rows => Some rows
  | None => Some [log_header]
  end.

Definition PaperTrader_init (initial_cash : Q) (file : option (list csv_row))
  : result ValueError Ledger :=
  if Qle_bool initial_cash 0 then Raise InitialCashNotPositive
  else Ok (mkLedger initial_cash ∅ (_ensure_log_header file)).

(** *** [_log_trade] (lines 118-132) *)

Definition opt_cell (o : option Q) : cell :=
  match o with
  | Some q => CNum q
  | None => CStr ""
  end.

Definition _log_trade (order : Order) (position : Position) : M unit :=
  c <- get_cash ;;
  append_row
    [CStr (ord_timestamp order); CStr (ord_symbol order); CStr (ord_side order);
     CNum (ord_quantity order); CNum (ord_price order);
     opt_cell (pos_stop_loss position); opt_cell (pos_take_profit position);
     CNum c].

(** *** [process_order] (lines 78-116) *)

Definition set_stop_loss (v : option Q) (p : Position) : Position :=
  mkPosition (pos_symbol p) (pos_quantity p) (pos_avg_price p) v (pos_take_profit p).
Definition set_take_profit (v : option Q) (p : Position) : Position :=
  mkPosition (pos_symbol p) (pos_quantity p) (pos_avg_price p) (pos_stop_loss p) v.

Definition process_order (order : Order) : M unit :=
  let s := ord_symbol order in
  if Qle_bool (ord_quantity order) 0 then raise QuantityNotPositive else
  if Qle_bool (ord_price order) 0 then raise PriceNotPositive else
  position <- positions_setdefault s (new_Position s) ;;
  position <-
    (if String.eqb (ord_side order) "BUY" then
       let cost := ord_quantity order * ord_price order in
       c <- get_cash ;;
       if Qgt_bool cost c then raise InsufficientFunds else
       set_cash (c - cost) ;;
       p <- lift (Position_update position "BUY" (ord_quantity order) (ord_price order)) ;;
       store_position s p
     else if String.eqb (ord_side order) "SELL" then
       if Qlt_bool (pos_quantity position) (ord_quantity order)
       then raise InsufficientPosition else
       c <- get_cash ;;
       set_cash (c + ord_quantity order * ord_price order) ;;
       p <- lift (Position_update position "SELL" (ord_quantity order) (ord_price order)) ;;
       store_position s p
     else raise UnknownSide) ;;
  match ord_stop_loss order, ord_take_profit order with
  | Some sl, Some tp =>
      if Qge_bool sl tp then raise StopNotBelowTake else ret tt
  | _, _ => ret tt
  end ;;
  position <-
    (if Qgt_bool (pos_quantity position) 0 then
       position <-
         match ord_stop_loss order with
         | Some sl => store_position s (set_stop_loss (Some sl) position)
         | None => ret position
         end ;;
       match ord_take_profit order with
       | Some tp => store_position s (set_take_profit (Some tp) position)
       | None => ret position
       end
     else
       position <- store_position s (set_stop_loss None position) ;;
       store_position s (set_take_profit None position)) ;;
  _log_trade order position ;;
  if Qeq_bool (pos_quantity position) 0 then positions_pop s else ret tt.

(** *** [check_stop_take] (lines 134-156)

    The synthetic order takes its timestamp from the clock
    ([default_factory]); the reading of the clock is the argument [now]. *)

Definition get_positions : M (gmap string Position) :=
  fun l => (l, Ok (positions l)).

(** [o is not None and test(o)]. *)
Definition is_set_and (o : option Q) (test : Q -> bool) : bool :=
  match o with
  | Some v => test v
  | None => false
  end.

Definition check_stop_take (symbol : string) (current_price : Q) (now : string)
  : M (option Order) :=
  ps <- get_positions ;;
  match ps !! symbol with
  | None => ret None
  | Some position =>
      if Qeq_bool (pos_quantity position) 0 then ret None else
      if is_set_and (pos_stop_loss position) (fun sl => Qle_bool current_price sl)
      then ret (Some (mkOrder symbol "SELL" (pos_quantity position) current_price
                        (pos_stop_loss position) None now))
      else
      if is_set_and (pos_take_profit position) (fun tp => Qge_bool current_price tp)
      then ret (Some (mkOrder symbol "SELL" (pos_quantity position) current_price
                        None (pos_take_profit position) now))
      else ret None
  end.

End PaperTrader.

Module Reporting.
Import PaperTrader.

(** *** [reporting.py] *)

Record TradingReport := mkTradingReport {
  final_balance : Q;
  pnl : Q;
  return_pct : Q;
  max_drawdown_pct : Q
}.

Definition cell_is (key : string) (c : cell) : bool :=
  match c with
  | CStr s => String.eqb s key
  | CNum _ => false
  end.

(** [csv.DictReader]: [row[key]] in [dict(zip(fieldnames, row))]; the last
    column named [key] wins, and [None] stands for the [KeyError] (no such
    column) or the [None] value of a short row. *)
Fixpoint row_get (key : string) (fieldnames row : csv_row) (found : option cell)
  : option cell :=
  match fieldnames, row with
  | f :: fs, c :: cs => row_get key fs cs (if cell_is key f then Some c else found)
  | _, _ => found
  end.

(** [float(text)]: succeeds on a numeric literal, [ValueError] otherwise.
    A row whose cash cell cannot be read is skipped ([continue]). *)
Definition float_of_cell (c : cell) : option Q :=
  match c with
  | CNum q => Some q
  | CStr _ => None
  end.

Definition _read_cash_series (file : option (list csv_row)) (initial_cash : Q) : list Q :=
  match file with
  | None => [initial_cash]
  | Some lines =>
      match lines with
      | [] => [initial_cash]
      | fieldnames :: rows =>
          initial_cash ::
          omap (fun row => row_get "cash" fieldnames row None ≫= float_of_cell) rows
      end
  end.

(** The loop body of [_calculate_max_drawdown], on the pair
    [(peak, max_drawdown)]. *)
Definition drawdown_step (st : option Q * Q) (value : Q) : option Q * Q :=
  match st with
  | (None, max_drawdown) => (Some value, max_drawdown)
  | (Some peak, max_drawdown) =>
      let peak := if Qgt_bool value peak then value else peak in
      if Qgt_bool peak 0 then
        let drawdown := (peak - value) / peak * 100 in
        (Some peak, if Qgt_bool drawdown max_drawdown then drawdown else max_drawdown)
      else (Some peak, max_drawdown)
  end.

Definition _calculate_max_drawdown (values : list Q) : Q :=
  snd (fold_left drawdown_step values (None, 0)).

(** [cash_series[-1]]; the series always starts with [initial_cash]. *)
Definition generate_report (initial_cash : Q) (file : option (list csv_row))
  : result ValueError TradingReport :=
  if Qle_bool initial_cash 0 then Raise InitialCashNotPositive else
  let cash_series := _read_cash_series file initial_cash in
  let final_balance := List.last cash_series initial_cash in
  let pnl := final_balance - initial_cash in
  let return_pct := pnl / initial_cash * 100 in
  let max_drawdown := _calculate_max_drawdown cash_series in
  Ok (mkTradingReport final_balance pnl return_pct max_drawdown).

End Reporting.

(** ** The ledger on IEEE doubles

    [PaperTrader] above reads the amounts as exact rationals.  Python
    computes them as [float]s: IEEE 754 binary64 values, with rounding,
    overflow to infinity and NaN, on which every ordered comparison with
    NaN is false.  This module is the same code ([Position.update], the
    constructor, [_log_trade] and [process_order], line for line) on
    those numbers, which Rocq has as its primitive [float]. *)

Module FloatTrader.

Record Position := mkPosition {
  pos_symbol : string;
  pos_quantity : PrimFloat.float;
  pos_avg_price : PrimFloat.float;
  pos_stop_loss : option PrimFloat.float;
  pos_take_profit : option PrimFloat.float
}.

Record Order := mkOrder {
  ord_symbol : string;
  ord_side : string;
  ord_quantity : PrimFloat.float;
  ord_price : PrimFloat.float;
  ord_stop_loss : option PrimFloat.float;
  ord_take_profit : option PrimFloat.float;
  ord_timestamp : string
}.

Definition new_Position (s : string) : Position :=
  mkPosition s 0%float 0%float None None.

Inductive cell :=
  | CNum (x : PrimFloat.float)
  | CStr (s : string).

Definition csv_row := list cell.

Definition log_header : csv_row :=
  [CStr "timestamp"; CStr "symbol"; CStr "side"; CStr "quantity";
   CStr "price"; CStr "stop_loss"; CStr "take_profit"; CStr "cash"].

Record Ledger := mkLedger {
  cash : PrimFloat.float;
  positions : gmap string Position;
  trades_log : option (list csv_row)
}.

Definition M (A : Type) : Type :=
  Ledger -> Ledger * result PaperTrader.ValueError A.

Definition ret {A} (a : A) : M A := fun l => (l, Ok a).
Definition raise {A} (e : PaperTrader.ValueError) : M A := fun l => (l, Raise e).
Definition bind {A B} (m : M A) (k : A -> M B) : M B :=
  fun l => match m l with
           | (l', Ok a) => k a l'
           | (l', Raise e) => (l', Raise e)
           end.

Notation "x <- m ;; k" := (bind m (fun x => k))
  (at level 100, m at next level, right associativity).
Notation "m ;; k" := (bind m (fun _ => k))
  (at level 100, right associativity).

Definition get_cash : M PrimFloat.float := fun l => (l, Ok (cash l)).
Definition set_cash (c : PrimFloat.float) : M unit :=
  fun l => (mkLedger c (positions l) (trades_log l), Ok tt).
Definition positions_setdefault (s : string) (p : Position) : M Position :=
  fun l => match positions l !! s with
           | Some p0 => (l, Ok p0)
           | None => (mkLedger (cash l) (<[s := p]> (positions l)) (trades_log l), Ok p)
           end.
Definition store_position (s : string) (p : Position) : M Position :=
  fun l => (mkLedger (cash l) (<[s := p]> (positions l)) (trades_log l), Ok p).
Definition positions_pop (s : string) : M unit :=
  fun l => (mkLedger (cash l) (delete s (positions l)) (trades_log l), Ok tt).
Definition append_row (r : csv_row) : M unit :=
  fun l => (mkLedger (cash l) (positions l)
              (Some (match trades_log l with
                     | Some rows => (rows ++ [r])%list
                     | None => [r]
                     end)), Ok tt).
Definition lift {A} (r : result PaperTrader.ValueError A) : M A := fun l => (l, r).

(** [Position.update] (lines 23-37). *)
Definition Position_update (p : Position) (side : string)
    (quantity price : PrimFloat.float)
  : result PaperTrader.ValueError Position :=
  if String.eqb side "BUY" then
    let total_cost := (pos_avg_price p * pos_quantity p + price * quantity)%float in
    let q := (pos_quantity p + quantity)%float in
    if (0 <? q)%float
    then Ok (mkPosition (pos_symbol p) q (total_cost / q)%float
               (pos_stop_loss p) (pos_take_profit p))
    else Ok (mkPosition (pos_symbol p) q (pos_avg_price p)
               (pos_stop_loss p) (pos_take_profit p))
  else if String.eqb side "SELL" then
    let q := (pos_quantity p - quantity)%float in
    if (q <=? 0)%float
    then Ok (mkPosition (pos_symbol p) 0%float 0%float None None)
    else Ok (mkPosition (pos_symbol p) q (pos_avg_price p)
               (pos_stop_loss p) (pos_take_profit p))
  else Raise PaperTrader.UnknownSide.

(** [PaperTrader.__init__] and [_ensure_log_header] (lines 54-76). *)
Definition _ensure_log_header (file : option (list csv_row)) : option (list csv_row) :=
  match file with
  | Some rows => Some rows
  | None => Some [log_header]
  end.

Definition PaperTrader_init (initial_cash : PrimFloat.float)
    (file : option (list csv_row)) : result PaperTrader.ValueError Ledger :=
  if (initial_cash <=? 0)%float then Raise PaperTrader.InitialCashNotPositive
  else Ok (mkLedger initial_cash ∅ (_ensure_log_header file)).

(** [_log_trade] (lines 118-132). *)
Definition opt_cell (o : option PrimFloat.float) : cell :=
  match o with
  | Some x => CNum x
  | None => CStr ""
  end.

Definition _log_trade (order : Order) (position : Position) : M unit :=
  c <- get_cash ;;
  append_row
    [CStr (ord_timestamp order); CStr (ord_symbol order); CStr (ord_side order);
     CNum (ord_quantity order); CNum (ord_price order);
     opt_cell (pos_stop_loss position); opt_cell (pos_take_profit position);
     CNum c].

Definition set_stop_loss (v : option PrimFloat.float) (p : Position) : Position :=
  mkPosition (pos_symbol p) (pos_quantity p) (pos_avg_price p) v (pos_take_profit p).
Definition set_take_profit (v : option PrimFloat.float) (p : Position) : Position :=
  mkPosition (pos_symbol p) (pos_quantity p) (pos_avg_price p) (pos_stop_loss p) v.

(** [process_order] (lines 78-116). *)
Definition process_order (order : Order) : M unit :=
  let s := ord_symbol order in
  if (ord_quantity order <=? 0)%float then raise PaperTrader.QuantityNotPositive else
  if (ord_price order <=? 0)%float then raise PaperTrader.PriceNotPositive else
  position <- positions_setdefault s (new_Position s) ;;
  position <-
    (if String.eqb (ord_side order) "BUY" then
       let cost := (ord_quantity order * ord_price order)%float in
       c <- get_cash ;;
       if (c <? cost)%float then raise PaperTrader.InsufficientFunds else
       set_cash (c - cost)%float ;;
       p <- lift (Position_update position "BUY" (ord_quantity order) (ord_price order)) ;;
       store_position s p
     else if String.eqb (ord_side order) "SELL" then
       if (pos_quantity position <? ord_quantity order)%float
       then raise PaperTrader.InsufficientPosition else
       c <- get_cash ;;
       set_cash (c + ord_quantity order * ord_price order)%float ;;
       p <- lift (Position_update position "SELL" (ord_quantity order) (ord_price order)) ;;
       store_position s p
     else raise PaperTrader.UnknownSide) ;;
  match ord_stop_loss order, ord_take_profit order with
  | Some sl, Some tp =>
      if (tp <=? sl)%float then raise PaperTrader.StopNotBelowTake else ret tt
  | _, _ => ret tt
  end ;;
  position <-
    (if (0 <? pos_quantity position)%float then
       position <-
         match ord_stop_loss order with
         | Some sl => store_position s (set_stop_loss (Some sl) position)
         | None => ret position
         end ;;
       match ord_take_profit order with
       | Some tp => store_position s (set_take_profit (Some tp) position)
       | None => ret position
       end
     else
       position <- store_position s (set_stop_loss None position) ;;
       store_position s (set_take_profit None position)) ;;
  _log_trade order position ;;
  if (pos_quantity position =? 0)%float then positions_pop s else ret tt.

End FloatTrader.

Module AlorClient.

(** *** Values exchanged with the server *)

(** A decoded JSON document, which is also the Python value that
    [json.loads] or [Response.json] returns; [JNull] is Python's [None].
    The members of an object have distinct keys. *)
#[warnings="-register-all"] Inductive json :=
  | JNull
  | JBool (b : bool)
  | JNum (q : Q)
  | JStr (s : string)
  | JArr (items : list json)
  | JObj (members : list (string * json)).

Definition isinstance_dict (v : json) : bool :=
  match v with
  | JObj _ => true
  | _ => false
  end.

Definition is_None (v : json) : bool :=
  match v with
  | JNull => true
  | _ => false
  end.

Fixpoint members_lookup (key : string) (members : list (string * json)) : option json :=
  match members with
  | [] => None
  | (k, v) :: rest => if String.eqb k key then Some v else members_lookup key rest
  end.

(** [d.get(key)]: [None] when the key is missing. *)
Definition dict_get (key : string) (members : list (string * json)) : json :=
  default JNull (members_lookup key members).

(** [v == 401] for a Python value taken from a JSON document. *)
Definition equals_401 (v : json) : bool :=
  match v with
  | JNum q => Qeq_bool q 401
  | _ => false
  end.

(** *** Exceptions ([alor_client.py], lines 19-28, and the library classes
    the module catches)

    [AlorAuthError] and [AlorConnectionError] are subclasses of
    [AlorAPIError]; [ConnectionClosedError] is a subclass of
    [WebSocketException]; every class here is a subclass of [Exception].
    What lies outside [Exception] ([asyncio.CancelledError],
    [KeyboardInterrupt]) is not embedded: no handler of the module catches
    it, and it leaves any call as it is.
    A message is kept in structured form instead of formatted text. *)
Inductive exn :=
  | AlorAPIError (msg : message)
  | AlorAuthError (msg : message)
  | AlorConnectionError (msg : message)
  | RequestException (detail : string)
  | ConnectionClosedError
  | WebSocketException (detail : string)
  | OtherException (class_name : string)
with message :=
  | MsgTokenRequired
  | MsgRequestFailed (url : string) (cause : exn)
  | MsgInvalidToken
  | MsgBadStatus (status_code : Z) (body_prefix : string)
  | MsgBadResponseJson
  | MsgNoCandles
  | MsgNotRestored
  | MsgUnhandled (cause : exn)
  | MsgBadFrameJson
  | MsgFrameUnauthorized
  | MsgFrameNotObject
  | MsgText (text : string).

(** [isinstance(e, (ConnectionClosedError, WebSocketException))]. *)
Definition is_WebSocketException (e : exn) : bool :=
  match e with
  | ConnectionClosedError | WebSocketException _ => true
  | _ => false
  end.

Definition is_AlorAuthError (e : exn) : bool :=
  match e with
  | AlorAuthError _ => true
  | _ => false
  end.

Definition is_AlorConnectionError (e : exn) : bool :=
  match e with
  | AlorConnectionError _ => true
  | _ => false
  end.

(** [isinstance(e, AlorAPIError)], subclasses included. *)
Definition is_AlorAPIError (e : exn) : bool :=
  match e with
  | AlorAPIError _ | AlorAuthError _ | AlorConnectionError _ => true
  | _ => false
  end.

(** *** The HTTP session *)

Inductive param_value :=
  | PInt (n : Z)
  | PStr (s : string).

Record Request := mkRequest {
  req_url : string;
  req_headers : list (string * string);
  req_params : list (string * param_value);
  req_timeout : Z
}.

(** What the code reads of a [requests.Response]; [resp_json] is [None]
    when [response.json()] raises [ValueError].  The text is held as its
    UTF-8 bytes, as Rocq's string literals are. *)
Record Response := mkResponse {
  status_code : Z;
  ok : bool;
  text : string;
  resp_json : option json
}.

(** [session.get] returns a response or raises
    [requests.exceptions.RequestException]. *)
Inductive get_outcome :=
  | GetRaises (detail : string)
  | GetReturns (response : Response).

Record AlorClient := mkAlorClient {
  _token : string;
  base_rest_url : string;
  base_ws_url : string;
  rest_timeout : Z;
  _session : Request -> get_outcome
}.

Record CandleRequest := mkCandleRequest {
  cr_symbol : string;
  cr_exchange : string;
  cr_interval : string;
  cr_limit : Z
}.

(** [s.rstrip("/")]. *)
Fixpoint rstrip_slash (s : string) : string :=
  match s with
  | EmptyString => EmptyString
  | String c rest =>
      let r := rstrip_slash rest in
      if String.eqb r "" && Ascii.eqb c "/"%char then "" else String c r
  end.

Definition AlorClient_init (token base_rest base_ws : string) (timeout : Z)
    (session : Request -> get_outcome) : result exn AlorClient :=
  if String.eqb token "" then Raise (AlorAuthError MsgTokenRequired)
  else Ok (mkAlorClient token (rstrip_slash base_rest) (rstrip_slash base_ws)
             timeout session).

Definition _auth_headers (self : AlorClient) : list (string * string) :=
  [("Authorization", "Bearer " ++ _token self); ("Accept", "application/json")].

(** *** REST ([alor_client.py], lines 71-132) *)

(** A continuation byte of UTF-8, [10xxxxxx]: a byte inside a character,
    not its first. *)
Definition is_continuation (c : ascii) : bool :=
  match c with
  | Ascii _ _ _ _ _ _ b6 b7 => b7 && negb b6
  end.

(** [s[:n]]: the first [n] characters of a text, each a first byte with
    the continuation bytes that follow it. *)
Fixpoint str_prefix (n : nat) (s : string) : string :=
  match s with
  | EmptyString => EmptyString
  | String c rest =>
      if is_continuation c then String c (str_prefix n rest)
      else match n with
           | O => EmptyString
           | S m => String c (str_prefix m rest)
           end
  end.

Definition _safe_get (self : AlorClient) (url : string)
    (params : list (string * param_value)) : result exn Response :=
  let headers := _auth_headers self in
  match _session self (mkRequest url headers params (rest_timeout self)) with
  | GetRaises detail =>
      Raise (AlorConnectionError (MsgRequestFailed url (RequestException detail)))
  | GetReturns response =>
      if (status_code response =? 401)%Z then Raise (AlorAuthError MsgInvalidToken)
      else if negb (ok response) then
        Raise (AlorAPIError
                 (MsgBadStatus (status_code response)
                    (str_prefix 200 (text response))))
      else Ok response
  end.

Definition _safe_json (response : Response) : result exn json :=
  match resp_json response with
  | Some v => Ok v
  | None => Raise (AlorAPIError MsgBadResponseJson)
  end.

Definition candles_endpoint (self : AlorClient) (request : CandleRequest) : string :=
  base_rest_url self ++ "/md/v2/history/" ++ cr_exchange request ++ "/"
    ++ cr_symbol request.

Definition get_historical_candles (self : AlorClient)
    (symbol exchange interval : string) (limit : Z) : result exn json :=
  let request := mkCandleRequest symbol exchange interval limit in
  let endpoint := candles_endpoint self request in
  let params := [("limit", PInt (cr_limit request));
                 ("timeframe", PStr (cr_interval request))] in
  match _safe_get self endpoint params with
  | Raise e => Raise e
  | Ok response =>
      match _safe_json response with
      | Raise e => Raise e
      | Ok data =>
          let candles :=
            match data with
            | JObj members => dict_get "candles" members
            | _ => data
            end in
          if is_None candles then Raise (AlorAPIError MsgNoCandles)
          else Ok candles
      end
  end.

Definition get_order_book (self : AlorClient) (symbol exchange : string)
    (depth : Z) : result exn json :=
  let endpoint := base_rest_url self ++ "/md/v2/orderBook/" ++ exchange ++ "/"
                    ++ symbol in
  match _safe_get self endpoint [("depth", PInt depth)] with
  | Raise e => Raise e
  | Ok response => _safe_json response
  end.

(** *** WebSocket ([alor_client.py], lines 141-235) *)

Inductive raw_message :=
  | RawStr (s : string)
  | RawBytes (b : string).

(** What one [await websocket.recv()] does. *)
Inductive recv_event :=
  | RecvMessage (raw : raw_message)
  | RecvRaises (e : exn).

(** One connection as the environment plays it: what entering the
    [async with] block and sending the subscription frame raise, if
    anything, and the events of the successive [recv] calls.  After the
    last listed event [recv] never returns. *)
Record connection := mkConnection {
  on_enter : option exn;
  on_send : option exn;
  frames : list recv_event
}.

(** A caller-supplied callback: plain or coroutine function.  Its own state
    is represented by the payloads it has been given so far; it returns
    normally ([None]) or raises. *)
Record callback := mkCallback {
  iscoroutinefunction : bool;
  call : list json -> json -> option exn
}.

(** What is observable of a subscription from outside. *)
Record stream_log := mkStreamLog {
  sent_frames : list json;
  dispatched : list json;
  sleeps : list Q
}.

Definition empty_log : stream_log := mkStreamLog [] [] [].

Definition log_send (frame : json) (tr : stream_log) : stream_log :=
  mkStreamLog (sent_frames tr ++ [frame])%list (dispatched tr) (sleeps tr).
Definition log_dispatch (payload : json) (tr : stream_log) : stream_log :=
  mkStreamLog (sent_frames tr) (dispatched tr ++ [payload])%list (sleeps tr).
Definition log_sleep (delay : Q) (tr : stream_log) : stream_log :=
  mkStreamLog (sent_frames tr) (dispatched tr) (sleeps tr ++ [delay])%list.

(** How a call of [subscribe_quotes] ends. *)
Inductive outcome :=
  | Returned
  | Raised (e : exn)
  | Blocked            (* waits in [recv] for ever *)
  | ScriptExhausted.   (* needs a connection the environment script lacks *)

(** How the body of the [try] statement ends; it never falls through,
    because [while True] is left only by [return] or by an exception. *)
Inductive body_outcome :=
  | BodyReturns
  | BodyRaises (e : exn)
  | BodyBlocked.

Section Subscription.

(** The library functions [bytes.decode("utf-8")] and [json.loads];
    [None] stands for [UnicodeDecodeError], respectively
    [json.JSONDecodeError]. *)
Variable utf8_decode : string -> option string.
Variable json_loads : string -> option json.

Definition _parse_ws_message (raw_message : raw_message) : result exn json :=
  let decoded :=
    match raw_message with
    | RawBytes b =>
        match utf8_decode b with
        | Some s => Ok s
        | None => Raise (OtherException "UnicodeDecodeError")
        end
    | RawStr s => Ok s
    end in
  match decoded with
  | Raise e => Raise e
  | Ok s =>
      match json_loads s with
      | None => Raise (AlorAPIError MsgBadFrameJson)
      | Some payload =>
          if isinstance_dict payload
             && equals_401 (match payload with
                            | JObj members => dict_get "status" members
                            | _ => JNull
                            end)
          then Raise (AlorAuthError MsgFrameUnauthorized)
          else if negb (isinstance_dict payload)
          then Raise (AlorAPIError MsgFrameNotObject)
          else Ok payload
      end
  end.

Definition _dispatch_callback (cb : callback) (payload : json) (tr : stream_log)
  : stream_log * option exn :=
  if iscoroutinefunction cb
  then (log_dispatch payload tr, call cb (dispatched tr) payload)
  else (log_dispatch payload tr, call cb (dispatched tr) payload).

Definition subscribe_message (symbol exchange : string) : json :=
  JObj [("opcode", JStr "QuotesSubscribe"); ("code", JStr symbol);
        ("exchange", JStr exchange); ("format", JStr "Simple")].

Definition reached (max_messages : option Z) (received : Z) : bool :=
  match max_messages with
  | Some m => (m <=? received)%Z
  | None => false
  end.

(** The [while True] loop of lines 166-172. *)
Fixpoint receive_loop (cb : callback) (max_messages : option Z)
    (events : list recv_event) (received : Z) (tr : stream_log)
  : body_outcome * stream_log :=
  match events with
  | [] => (BodyBlocked, tr)
  | RecvRaises e :: _ => (BodyRaises e, tr)
  | RecvMessage raw :: rest =>
      match _parse_ws_message raw with
      | Raise e => (BodyRaises e, tr)
      | Ok payload =>
          match _dispatch_callback cb payload tr with
          | (tr', Some e) => (BodyRaises e, tr')
          | (tr', None) =>
              let received := (received + 1)%Z in
              if reached max_messages received then (BodyReturns, tr')
              else receive_loop cb max_messages rest received tr'
          end
      end
  end.

(** The body of the [try] statement, lines 161-172. *)
Definition try_body (symbol exchange : string) (cb : callback)
    (max_messages : option Z) (c : connection) (tr : stream_log)
  : body_outcome * stream_log :=
  match on_enter c with
  | Some e => (BodyRaises e, tr)
  | None =>
      match on_send c with
      | Some e => (BodyRaises e, tr)
      | None =>
          receive_loop cb max_messages (frames c) 0
            (log_send (subscribe_message symbol exchange) tr)
      end
  end.

(** The [while attempts <= reconnect_attempts] loop with its handlers,
    lines 159-185; each iteration consumes the next connection of the
    environment.  The [else] clause of the [try] (lines 183-185) runs only
    when the body falls through, which it never does.  When the loop
    condition fails on entry the function falls off its end and returns. *)
Fixpoint subscribe_loop (symbol exchange : string) (cb : callback)
    (reconnect_attempts : Z) (reconnect_delay : Q) (max_messages : option Z)
    (conns : list connection) (attempts : Z) (tr : stream_log)
  : outcome * stream_log :=
  if (attempts <=? reconnect_attempts)%Z then
    match conns with
    | [] => (ScriptExhausted, tr)
    | c :: conns' =>
        match try_body symbol exchange cb max_messages c tr with
        | (BodyReturns, tr') => (Returned, tr')
        | (BodyBlocked, tr') => (Blocked, tr')
        | (BodyRaises e, tr') =>
            if is_WebSocketException e then
              let attempts := (attempts + 1)%Z in
              if (reconnect_attempts <? attempts)%Z
              then (Raised (AlorConnectionError MsgNotRestored), tr')
              else subscribe_loop symbol exchange cb reconnect_attempts
                     reconnect_delay max_messages conns' attempts
                     (log_sleep reconnect_delay tr')
            else if is_AlorAuthError e then (Raised e, tr')
            else (Raised (AlorAPIError (MsgUnhandled e)), tr')
        end
    end
  else (Returned, tr).

Definition subscribe_quotes (symbol exchange : string) (cb : callback)
    (reconnect_attempts : Z) (reconnect_delay : Q) (max_messages : option Z)
    (conns : list connection) : outcome * stream_log :=
  subscribe_loop symbol exchange cb reconnect_attempts reconnect_delay
    max_messages conns 0 empty_log.

End Subscription.

End AlorClient.

(** ** Strategies ([strategies.py]): the breakout strategy

    A pandas [DataFrame] of candles is embedded as the list of its column
    labels and the list of its rows, a row giving the value of each
    column; a float is a rational or NaN ([None]).  The pandas operations
    that [breakout_strategy] uses are written out: positional slices with
    negative bounds, [max] and [min], which skip NaN and are NaN when
    nothing is left, and comparisons, which are false on NaN.  These
    operations select and compare values and compute none, so on finite
    doubles they give what they give here.  The strategies built on
    moving and exponentially weighted means are not embedded: their
    results depend on the rounding of pandas' running sums. *)

Module Strategies.

Inductive Signal := BUY | SELL | HOLD.

Definition float : Type := option Q.

Record DataFrame := mkDataFrame {
  df_columns : list string;
  df_rows : list (string -> float)
}.

(** [len(candles)]. *)
Definition df_len (candles : DataFrame) : Z := Z.of_nat (length (df_rows candles)).

(** The [ValueError] of the strategy, with the labels its message lists,
    and the [IndexError] of a positional access out of range. *)
Inductive StrategyError :=
  | MissingColumns (names : list string)
  | IndexError.

(** A bound of a Python slice over [n] items. *)
Definition slice_bound (n i : Z) : Z :=
  if (i <? 0)%Z then Z.max (n + i) 0 else Z.min i n.

(** [xs[start:stop]]. *)
Definition py_slice {A : Type} (start stop : Z) (xs : list A) : list A :=
  let n := Z.of_nat (length xs) in
  let a := slice_bound n start in
  let b := slice_bound n stop in
  take (Z.to_nat (b - a)) (drop (Z.to_nat a) xs).

(** [xs.iloc[-k]] for a positive [k]. *)
Definition iloc_back {A : Type} (k : nat) (xs : list A) : result StrategyError A :=
  if (length xs <? k)%nat then Raise IndexError
  else match xs !! (length xs - k)%nat with
       | Some x => Ok x
       | None => Raise IndexError
       end.

(** Comparisons of floats. *)
Definition float_gt (a b : float) : bool :=
  match a, b with
  | Some x, Some y => Qlt_bool y x
  | _, _ => false
  end.
Definition float_lt (a b : float) : bool := float_gt b a.

(** [Series.max()] and [Series.min()]. *)
Definition pick_max (acc : float) (x : float) : float :=
  match acc, x with
  | Some a, Some b => Some (if Qlt_bool a b then b else a)
  | None, Some b => Some b
  | _, None => acc
  end.
Definition pick_min (acc : float) (x : float) : float :=
  match acc, x with
  | Some a, Some b => Some (if Qlt_bool b a then b else a)
  | None, Some b => Some b
  | _, None => acc
  end.
Definition series_max (s : list float) : float := fold_left pick_max s None.
Definition series_min (s : list float) : float := fold_left pick_min s None.

(** [sorted(names)] on strings: by code point, which is the order of
    their UTF-8 bytes. *)
Fixpoint insert_sorted (x : string) (names : list string) : list string :=
  match names with
  | [] => [x]
  | y :: rest => if String.leb x y then x :: names else y :: insert_sorted x rest
  end.
Definition py_sorted (names : list string) : list string :=
  fold_right insert_sorted [] names.

(** [sorted(required - set(candles.columns))]: the members of [required]
    that are not columns, each once, in order. *)
Definition missing_columns (candles : DataFrame) (required : list string)
  : list string :=
  py_sorted (remove_dups (filter (fun name => name ∉ df_columns candles) required)).

(** [breakout_strategy] (lines 115-142). *)
Definition breakout_strategy (candles : DataFrame) (lookback : Z)
    (price_column : string) : result StrategyError Signal :=
  let missing := missing_columns candles [price_column; "high"; "low"] in
  if negb (bool_decide (missing = [])) then Raise (MissingColumns missing) else
  if (df_len candles <=? lookback)%Z then Ok HOLD else
  match iloc_back 1 (df_rows candles) with
  | Raise e => Raise e
  | Ok recent =>
      let window := py_slice (- (lookback + 1)) (-1) (df_rows candles) in
      let highest := series_max ((fun row => row "high") <$> window) in
      let lowest := series_min ((fun row => row "low") <$> window) in
      let close_price := recent price_column in
      if float_gt close_price highest then Ok BUY
      else if float_lt close_price lowest then Ok SELL
      else Ok HOLD
  end.

(** A candle for examples. *)
Definition candle (high low close : Q) : string -> float :=
  fun name =>
    if String.eqb name "high" then Some high
    else if String.eqb name "low" then Some low
    else if String.eqb name "close" then Some close
    else None.

End Strategies.

(** ** The ledger: definitions used to state its properties *)

Module LedgerSpec.
Import PaperTrader Reporting.

(** The ledgers reached after each call of a sequence of [process_order]
    calls; a call that raises leaves the ledger it reached, and the caller
    goes on with the next order. *)
Fixpoint ledger_trace (l : Ledger) (orders : list Order) : list Ledger :=
  match orders with
  | [] => []
  | o :: os =>
      let l' := fst (process_order o l) in
      l' :: ledger_trace l' os
  end.

(** Every entry of the active-positions map is an open position. *)
Definition all_open (ps : gmap string Position) : Prop :=
  forall s p, ps !! s = Some p -> 0 < pos_quantity p.

(** The position an order acts on: the stored one, or the fresh
    zero-quantity one that [setdefault] creates. *)
Definition position_before (l : Ledger) (s : string) : Position :=
  default (new_Position s) (positions l !! s).

(** The contract of [check_stop_take], following the specification: what
    the call may return in a ledger [l]. *)
Inductive stop_take_spec (l : Ledger) (symbol : string) (current_price : Q)
    (now : string) : option Order -> Prop :=
  | st_absent :
      positions l !! symbol = None ->
      stop_take_spec l symbol current_price now None
  | st_empty p :
      positions l !! symbol = Some p ->
      pos_quantity p == 0 ->
      stop_take_spec l symbol current_price now None
  | st_stop_loss p sl :
      positions l !! symbol = Some p ->
      ~ pos_quantity p == 0 ->
      pos_stop_loss p = Some sl ->
      current_price <= sl ->
      stop_take_spec l symbol current_price now
        (Some (mkOrder symbol "SELL" (pos_quantity p) current_price (Some sl) None now))
  | st_take_profit p tp :
      positions l !! symbol = Some p ->
      ~ pos_quantity p == 0 ->
      (forall sl, pos_stop_loss p = Some sl -> sl < current_price) ->
      pos_take_profit p = Some tp ->
      tp <= current_price ->
      stop_take_spec l symbol current_price now
        (Some (mkOrder symbol "SELL" (pos_quantity p) current_price None (Some tp) now))
  | st_hold p :
      positions l !! symbol = Some p ->
      ~ pos_quantity p == 0 ->
      (forall sl, pos_stop_loss p = Some sl -> sl < current_price) ->
      (forall tp, pos_take_profit p = Some tp -> current_price < tp) ->
      stop_take_spec l symbol current_price now None.

(** The scenario of [tests/test_reporting.py]. *)
Definition fresh_ledger : Ledger := mkLedger 1000 ∅ (Some [log_header]).
Definition buy_5_at_100 : Order := mkOrder "SBER" "BUY" 5 100 None None "t1".
Definition sell_5_at_80 : Order := mkOrder "SBER" "SELL" 5 80 None None "t2".

(** A ledger in which a zero-quantity entry, stop-loss still attached, has
    stayed in the map. *)
Definition stale_position : Position := mkPosition "GAZP" 0 0 (Some 95) None.
Definition stale_ledger : Ledger :=
  mkLedger 1000 {["GAZP" := stale_position]} (Some [log_header]).

End LedgerSpec.

(** ** The ledger on doubles: definitions used to state its properties *)

Module FloatLedgerSpec.
Import FloatTrader.

(** The ledgers reached after each call of a sequence of [process_order]
    calls, a raising call leaving the ledger it reached. *)
Fixpoint ledger_trace (l : Ledger) (orders : list Order) : list Ledger :=
  match orders with
  | [] => []
  | o :: os =>
      let l' := fst (process_order o l) in
      l' :: ledger_trace l' os
  end.

(** The outcomes of the calls, in order. *)
Fixpoint outcomes (l : Ledger) (orders : list Order)
  : list (result PaperTrader.ValueError unit) :=
  match orders with
  | [] => []
  | o :: os => snd (process_order o l) :: outcomes (fst (process_order o l)) os
  end.

(** The cash invariant as the specification words it: a ledger built
    with a positive initial cash has [cash >= 0] after every call of
    every sequence of calls. *)
Definition cash_rule : Prop :=
  forall (initial_cash : PrimFloat.float) (file : option (list csv_row))
         (l0 : Ledger) (orders : list Order),
    (0 <? initial_cash)%float = true ->
    PaperTrader_init initial_cash file = Ok l0 ->
    Forall (fun l => (0 <=? cash l)%float = true) (ledger_trace l0 orders).

(** The position an order acts on: the stored one, or the fresh
    zero-quantity one that [setdefault] creates. *)
Definition position_before (l : Ledger) (s : string) : Position :=
  default (new_Position s) (positions l !! s).


(** Three orders with finite quantities and prices: a purchase of
    [1e200] units at [1e-200], their sale at [1e200], which overflows the
    cash to infinity, and a purchase at [1e200], of infinite cost. *)
#[warnings="-inexact-float"] Definition huge : PrimFloat.float := 1e200%float.
#[warnings="-inexact-float"] Definition tiny : PrimFloat.float := 1e-200%float.
Definition overflow_orders : list Order :=
  [mkOrder "SBER" "BUY" huge tiny None None "t1";
   mkOrder "SBER" "SELL" huge huge None None "t2";
   mkOrder "SBER" "BUY" huge huge None None "t3"].

(** One order whose price is NaN. *)
Definition nan_price_order : Order :=
  mkOrder "SBER" "BUY" 1%float PrimFloat.nan None None "t1".

End FloatLedgerSpec.

(** ** The client: definitions used to state its properties *)

Module ClientSpec.
Import AlorClient.

(** The body has the candle field: it is a JSON object with a [candles]
    member. *)
Definition has_candle_field (body : json) : Prop :=
  exists members c,
    body = JObj members /\ members_lookup "candles" members = Some c.

(** The candle data that the code finds in a decoded body: the [candles]
    member of an object, or the body itself when it is not an object
    (an array, but a number, a string or a boolean just as well).  JSON
    [null] is no data, as a member and as a body. *)
Inductive candle_data : json -> json -> Prop :=
  | cd_member members c :
      members_lookup "candles" members = Some c ->
      c <> JNull ->
      candle_data (JObj members) c
  | cd_bare body :
      isinstance_dict body = false ->
      body <> JNull ->
      candle_data body body.

(** The bodies in which the code finds no candle data: [null], and an
    object whose [candles] member is missing or [null]. *)
Definition no_candle_data (body : json) : Prop :=
  body = JNull
  \/ exists members, body = JObj members /\ dict_get "candles" members = JNull.

(** The number of characters of a text. *)
Fixpoint char_count (s : string) : nat :=
  match s with
  | EmptyString => 0
  | String c rest => (if is_continuation c then 0 else 1) + char_count rest
  end.

(** The text starts in the middle of a character. *)
Definition starts_inside_char (s : string) : bool :=
  match s with
  | EmptyString => false
  | String c _ => is_continuation c
  end.

(** [short] is [full] cut to at most [n] characters: a prefix that ends
    where a character ends and holds [n] characters, or all of them when
    there are fewer. *)
Definition truncated_to (n : nat) (full short : string) : Prop :=
  exists rest,
    full = short ++ rest
    /\ char_count short = Nat.min n (char_count full)
    /\ starts_inside_char rest = false.

(** The failure mapping of the historical query as the code has it: what
    the call yields for each thing the HTTP session can do. *)
Inductive candles_contract : get_outcome -> result exn json -> Prop :=
  | cc_network detail m :
      candles_contract (GetRaises detail) (Raise (AlorConnectionError m))
  | cc_unauthorized r m :
      status_code r = 401%Z ->
      candles_contract (GetReturns r) (Raise (AlorAuthError m))
  | cc_bad_status r body_prefix :
      status_code r <> 401%Z ->
      ok r = false ->
      truncated_to 200 (text r) body_prefix ->
      candles_contract (GetReturns r)
        (Raise (AlorAPIError (MsgBadStatus (status_code r) body_prefix)))
  | cc_not_json r :
      status_code r <> 401%Z ->
      ok r = true ->
      resp_json r = None ->
      candles_contract (GetReturns r) (Raise (AlorAPIError MsgBadResponseJson))
  | cc_no_candles r body :
      status_code r <> 401%Z ->
      ok r = true ->
      resp_json r = Some body ->
      no_candle_data body ->
      candles_contract (GetReturns r) (Raise (AlorAPIError MsgNoCandles))
  | cc_candles r body c :
      status_code r <> 401%Z ->
      ok r = true ->
      resp_json r = Some body ->
      candle_data body c ->
      candles_contract (GetReturns r) (Ok c).

(** The request that [get_historical_candles] hands to the session. *)
Definition candles_request (self : AlorClient) (symbol exchange interval : string)
    (limit : Z) : Request :=
  mkRequest
    (candles_endpoint self (mkCandleRequest symbol exchange interval limit))
    (_auth_headers self)
    [("limit", PInt limit); ("timeframe", PStr interval)]
    (rest_timeout self).

(** The last failure mode of C7 as the specification words it: when the
    response is a success and its body is JSON, a body that lacks the
    candle field raises [AlorAPIError]. *)
Definition candles_rule : Prop :=
  forall (self : AlorClient) (symbol exchange interval : string) (limit : Z)
         (r : Response) (body : json),
    _session self (candles_request self symbol exchange interval limit)
    = GetReturns r ->
    status_code r <> 401%Z ->
    ok r = true ->
    resp_json r = Some body ->
    ~ has_candle_field body ->
    exists m,
      get_historical_candles self symbol exchange interval limit
      = Raise (AlorAPIError m).

(** The stream delivers the frames [raws]: each decodes to the
    corresponding payload, a well-formed message, and the callback, having
    seen [hist] and the payloads before it, returns normally on it. *)
Fixpoint delivered (utf8_decode : string -> option string)
    (json_loads : string -> option json) (cb : callback) (hist : list json)
    (raws : list raw_message) (payloads : list json) : Prop :=
  match raws, payloads with
  | [], [] => True
  | raw :: raws', p :: payloads' =>
      _parse_ws_message utf8_decode json_loads raw = Ok p
      /\ call cb hist p = None
      /\ delivered utf8_decode json_loads cb (hist ++ [p])%list raws' payloads'
  | _, _ => False
  end.

(** The log after the callback has been given [payloads] in turn. *)
Definition log_dispatches (payloads : list json) (tr : stream_log) : stream_log :=
  mkStreamLog (sent_frames tr) (dispatched tr ++ payloads)%list (sleeps tr).

(** The rule of the specification for an error raised by the callback,
    read on the first message of a subscription: [AlorAuthError] and
    [AlorConnectionError] reach the caller as they are, any other error
    reaches it as an [AlorAPIError]. *)
Definition callback_error_rule : Prop :=
  forall utf8_decode json_loads symbol exchange cb reconnect_attempts
         reconnect_delay max_messages c rest raw more payload e,
    (0 <= reconnect_attempts)%Z ->
    on_enter c = None ->
    on_send c = None ->
    frames c = RecvMessage raw :: more ->
    _parse_ws_message utf8_decode json_loads raw = Ok payload ->
    call cb [] payload = Some e ->
    let out := fst (subscribe_quotes utf8_decode json_loads symbol exchange cb
                      reconnect_attempts reconnect_delay max_messages (c :: rest)) in
    if is_AlorAuthError e || is_AlorConnectionError e
    then out = Raised e
    else exists m, out = Raised (AlorAPIError m).

(** The stream delivers the messages [raws] over the connections
    [conns]: every connection opens and takes the subscription frame;
    each but the last hands over its share of the messages and is then
    lost to a websocket exception; the last hands over the rest. *)
Inductive stream_delivers : list connection -> list raw_message -> Prop :=
  | sd_last c raws :
      on_enter c = None ->
      on_send c = None ->
      frames c = map RecvMessage raws ->
      stream_delivers [c] raws
  | sd_lost c e conns raws raws' :
      on_enter c = None ->
      on_send c = None ->
      frames c = (map RecvMessage raws ++ [RecvRaises e])%list ->
      is_WebSocketException e = true ->
      stream_delivers conns raws' ->
      stream_delivers (c :: conns) (raws ++ raws')%list.

(** C8 as the specification words it: with [max_messages] a positive
    [n], when the stream delivers [n] well-formed messages on which the
    callback returns normally, the call returns, exactly those [n]
    messages have reached the callback, and nothing was slept.  The
    reconnect attempts allowed are enough for the connections used. *)
Definition max_messages_rule : Prop :=
  forall utf8_decode json_loads symbol exchange cb reconnect_attempts
         reconnect_delay (n : Z) conns raws payloads,
    (0 < n)%Z ->
    (Z.of_nat (length conns) <= reconnect_attempts + 1)%Z ->
    stream_delivers conns raws ->
    Z.of_nat (length raws) = n ->
    delivered utf8_decode json_loads cb [] raws payloads ->
    let run := subscribe_quotes utf8_decode json_loads symbol exchange cb
                 reconnect_attempts reconnect_delay (Some n) conns in
    fst run = Returned
    /\ dispatched (snd run) = payloads
    /\ sleeps (snd run) = [].

(** A toy environment for examples: text frames only, and every text
    decodes to the same quote object. *)
Definition quote : json := JObj [("symbol", JStr "SBER"); ("price", JNum 95)].
Definition toy_decode (b : string) : option string := Some b.
Definition toy_loads (s : string) : option json := Some quote.
Definition quiet_callback : callback := mkCallback false (fun _ _ => None).
Definition failing_callback (e : exn) : callback := mkCallback false (fun _ _ => Some e).
Definition link_down : exn := AlorConnectionError (MsgText "link down").
Definition one_frame : connection :=
  mkConnection None None [RecvMessage (RawStr "{}")].
Definition one_frame_then_lost : connection :=
  mkConnection None None [RecvMessage (RawStr "{}"); RecvRaises ConnectionClosedError].

(** The session of the repository's REST tests: it answers every request
    with the given response. *)
Definition mock_client (response : Response) : AlorClient :=
  mkAlorClient "test-token" "https://example.com" "wss://example.com" 10
    (fun _ => GetReturns response).

Definition sample_candles : json :=
  JArr [JObj [("time", JNum 0); ("open", JNum 1); ("close", JNum 1)]].

End ClientSpec.

(** ** The ledger: further definitions *)

Module LedgerLaws.
Import PaperTrader Reporting LedgerSpec.





(** The line that a successful [process_order] leaves in the log, read
    off the ledger it produced. *)
Definition log_row (order : Order) (l' : Ledger) : csv_row :=
  let stored := positions l' !! ord_symbol order in
  [CStr (ord_timestamp order); CStr (ord_symbol order); CStr (ord_side order);
   CNum (ord_quantity order); CNum (ord_price order);
   opt_cell (stored ≫= pos_stop_loss); opt_cell (stored ≫= pos_take_profit);
   CNum (cash l')].

(** The stop-loss and take-profit of an order are consistent. *)
Definition stops_consistent (o : Order) : Prop :=
  match ord_stop_loss o, ord_take_profit o with
  | Some sl, Some tp => sl < tp
  | _, _ => True
  end.


(** [new] where the order sets a value, [old] where it does not. *)
Definition overwrite (new old : option Q) : option Q :=
  match new with
  | Some v => Some v
  | None => old
  end.

(** *** The phases of [process_order]

    The body of [process_order] after its two entry checks, cut at its
    statements: the trade (lines 86-98), the stop/take cross-check (lines
    100-102) and the writing of the stop/take fields (lines 104-111). *)

Definition trade_phase (order : Order) (position : Position) : M Position :=
  let s := ord_symbol order in
  if String.eqb (ord_side order) "BUY" then
    let cost := ord_quantity order * ord_price order in
    c <- get_cash ;;
    if Qgt_bool cost c then raise InsufficientFunds else
    set_cash (c - cost) ;;
    p <- lift (Position_update position "BUY" (ord_quantity order) (ord_price order)) ;;
    store_position s p
  else if String.eqb (ord_side order) "SELL" then
    if Qlt_bool (pos_quantity position) (ord_quantity order)
    then raise InsufficientPosition else
    c <- get_cash ;;
    set_cash (c + ord_quantity order * ord_price order) ;;
    p <- lift (Position_update position "SELL" (ord_quantity order) (ord_price order)) ;;
    store_position s p
  else raise UnknownSide.

Definition stops_check (order : Order) : M unit :=
  match ord_stop_loss order, ord_take_profit order with
  | Some sl, Some tp =>
      if Qge_bool sl tp then raise StopNotBelowTake else ret tt
  | _, _ => ret tt
  end.

Definition stops_phase (order : Order) (position : Position) : M Position :=
  let s := ord_symbol order in
  if Qgt_bool (pos_quantity position) 0 then
    position <-
      match ord_stop_loss order with
      | Some sl => store_position s (set_stop_loss (Some sl) position)
      | None => ret position
      end ;;
    match ord_take_profit order with
    | Some tp => store_position s (set_take_profit (Some tp) position)
    | None => ret position
    end
  else
    position <- store_position s (set_stop_loss None position) ;;
    store_position s (set_take_profit None position).

(** The position object after the trade of an order, before the
    stop/take fields are touched: [Position.update] on the holding found. *)
Definition traded (o : Order) (old : Position) : Position :=
  match Position_update old (ord_side o) (ord_quantity o) (ord_price o) with
  | Ok p => p
  | Raise _ => old
  end.

(** The stop/take fields of an open position take the values the order
    sets; those of a position that is not open are cleared. *)
Definition with_stops (o : Order) (p : Position) : Position :=
  if Qgt_bool (pos_quantity p) 0
  then mkPosition (pos_symbol p) (pos_quantity p) (pos_avg_price p)
         (overwrite (ord_stop_loss o) (pos_stop_loss p))
         (overwrite (ord_take_profit o) (pos_take_profit p))
  else mkPosition (pos_symbol p) (pos_quantity p) (pos_avg_price p) None None.

(** The position object at the end of a successful call. *)
Definition settled (o : Order) (old : Position) : Position :=
  with_stops o (traded o old).


Definition sample_buy : Order := mkOrder "SBER" "BUY" 5 100 (Some 95) None "t1".
Definition sample_sell : Order := mkOrder "SBER" "SELL" 5 110 None None "t2".
Definition held_ledger : Ledger :=
  mkLedger 500 {["SBER" := mkPosition "SBER" 5 100 (Some 95) None]}
    (Some [log_header]).

End LedgerLaws.

(** ** The report: further definitions *)

Module ReportLaws.
Import PaperTrader Reporting.

(** Each value is at least [lo] and at least the value before it. *)
Fixpoint nondecreasing_from (lo : Q) (values : list Q) : Prop :=
  match values with
  | [] => True
  | v :: rest => lo <= v /\ nondecreasing_from v rest
  end.

Definition nondecreasing (values : list Q) : Prop :=
  match values with
  | [] => True
  | v :: rest => nondecreasing_from v rest
  end.

(** The fall from [peak] down to [value], in percent of [peak]. *)
Definition fall_pct (peak value : Q) : Q := (peak - value) / peak * 100.

End ReportLaws.

(** ** The client: further definitions *)

Module ClientLaws.
Import AlorClient ClientSpec.

(** The payload carries the unauthorized status. *)
Definition unauthorized (payload : json) : bool :=
  match payload with
  | JObj members => equals_401 (dict_get "status" members)
  | _ => false
  end.

(** A payload fit for the callback: a JSON object that does not carry the
    unauthorized status. *)
Definition well_formed_payload (payload : json) : Prop :=
  isinstance_dict payload = true /\ unauthorized payload = false.

(** The text of a frame: a text frame as it is, a binary frame decoded. *)
Definition frame_text (utf8_decode : string -> option string)
    (raw : raw_message) : option string :=
  match raw with
  | RawStr s => Some s
  | RawBytes b => utf8_decode b
  end.

(** The exception that [subscribe_quotes] lets out when [e] ends the
    body of its [try] statement and is not a websocket exception. *)
Definition surfaced (e : exn) : exn :=
  if is_AlorAuthError e then e else AlorAPIError (MsgUnhandled e).

(** The connection is lost before the receive loop ends normally: the
    body of the [try] statement raises a websocket exception on it. *)
Definition drops (utf8_decode : string -> option string)
    (json_loads : string -> option json) (symbol exchange : string)
    (cb : callback) (max_messages : option Z) (c : connection) : Prop :=
  forall tr, exists e tr',
    try_body utf8_decode json_loads symbol exchange cb max_messages c tr
    = (BodyRaises e, tr')
    /\ is_WebSocketException e = true.

(** A string of ['/'] characters only. *)
Fixpoint all_slashes (s : string) : bool :=
  match s with
  | EmptyString => true
  | String c rest => Ascii.eqb c "/"%char && all_slashes rest
  end.

(** The last character of a string, if any. *)
Fixpoint last_char (s : string) : option ascii :=
  match s with
  | EmptyString => None
  | String c EmptyString => Some c
  | String _ rest => last_char rest
  end.

(** The request that [get_order_book] hands to the session. *)
Definition order_book_request (self : AlorClient) (symbol exchange : string)
    (depth : Z) : Request :=
  mkRequest (base_rest_url self ++ "/md/v2/orderBook/" ++ exchange ++ "/" ++ symbol)
    (_auth_headers self) [("depth", PInt depth)] (rest_timeout self).

Definition refused : connection :=
  mkConnection (Some ConnectionClosedError) None [].
Definition unauthorized_frame : json := JObj [("status", JNum 401)].

End ClientLaws.

(** * Proofs: the paper-trading ledger and the report *)

Module LedgerProofs.
Import PaperTrader Reporting LedgerSpec.

(** *** Comparisons *)

Lemma Qlt_bool_true a b : Qlt_bool a b = true <-> a < b.
Proof.
  unfold Qlt_bool. rewrite negb_true_iff, <- not_true_iff_false, Qle_bool_iff.
  split; [apply Qnot_le_lt | apply Qlt_not_le].
Qed.

Lemma Qlt_bool_false a b : Qlt_bool a b = false <-> b <= a.
Proof. unfold Qlt_bool. rewrite negb_false_iff. apply Qle_bool_iff. Qed.

Lemma Qle_bool_false a b : Qle_bool a b = false <-> b < a.
Proof.
  rewrite <- not_true_iff_false, Qle_bool_iff.
  split; [apply Qnot_le_lt | apply Qlt_not_le].
Qed.


(** *** Proof automation *)

Ltac monad_unfold :=
  unfold process_order, check_stop_take, _log_trade, bind, ret, raise, lift,
    get_cash, set_cash, get_positions, positions_setdefault, store_position,
    positions_pop, append_row, Position_update, set_stop_loss, set_take_profit,
    is_set_and in *.

Ltac Qprop :=
  repeat match goal with
  | H : Qgt_bool _ _ = _ |- _ => unfold Qgt_bool in H
  | H : Qge_bool _ _ = _ |- _ => unfold Qge_bool in H
  | H : Qlt_bool _ _ = true |- _ => apply Qlt_bool_true in H
  | H : Qlt_bool _ _ = false |- _ => apply Qlt_bool_false in H
  | H : Qle_bool _ _ = true |- _ => apply Qle_bool_iff in H
  | H : Qle_bool _ _ = false |- _ => apply Qle_bool_false in H
  | H : Qeq_bool _ _ = true |- _ => apply Qeq_bool_iff in H
  | H : Qeq_bool _ _ = false |- _ => apply Qeq_bool_neq in H
  end.

Ltac path_split :=
  repeat (case_match; simpl in *; simplify_eq; try done).

(** *** What [process_order] does to the cash balance *)

Lemma process_order_cash (o : Order) (l : Ledger) :
  let cost := ord_quantity o * ord_price o in
  let l' := fst (process_order o l) in
  cash l' = cash l
  \/ (ord_side o = "BUY" /\ cost <= cash l /\ cash l' = cash l - cost)
  \/ (ord_side o = "SELL" /\ 0 < cost /\ cash l' = cash l + cost).
Proof.
  monad_unfold; simpl.
  destruct (Qle_bool (ord_quantity o) 0) eqn:Hq; [by left|].
  destruct (Qle_bool (ord_price o) 0) eqn:Hp; [by left|].
  assert (0 < ord_quantity o * ord_price o) as Hcost.
  { Qprop. apply Qmult_lt_0_compat; assumption. }
  destruct (ord_side o =? "BUY")%string eqn:Hbuy.
  - apply String.eqb_eq in Hbuy.
    path_split; Qprop; first [by left | right; left; done].
  - destruct (ord_side o =? "SELL")%string eqn:Hsell.
    + apply String.eqb_eq in Hsell.
      path_split; Qprop; first [by left | right; right; done].
    + path_split; by left.
Qed.

(** *** No record is written on a raising path *)

Lemma process_order_raise_log (o : Order) (l l' : Ledger) (e : ValueError) :
  process_order o l = (l', Raise e) -> trades_log l' = trades_log l.
Proof. monad_unfold; simpl. intros H. path_split. Qed.

(** The two checks made before anything is touched. *)
Lemma process_order_invalid_unchanged (o : Order) (l l' : Ledger) (e : ValueError) :
  process_order o l = (l', Raise e) ->
  e = QuantityNotPositive \/ e = PriceNotPositive ->
  l' = l.
Proof.
  monad_unfold; simpl. intros H He.
  path_split; destruct He; done.
Qed.


(** The stop/take check runs after the trade: when it rejects a BUY that
    passed the earlier checks, the cost has already left the cash. *)
Lemma stop_take_check_runs_late (o : Order) (l : Ledger) (sl tp : Q) :
  ord_side o = "BUY" ->
  0 < ord_quantity o ->
  0 < ord_price o ->
  ord_quantity o * ord_price o <= cash l ->
  ord_stop_loss o = Some sl ->
  ord_take_profit o = Some tp ->
  tp <= sl ->
  exists l', process_order o l = (l', Raise StopNotBelowTake)
             /\ cash l' = cash l - ord_quantity o * ord_price o
             /\ is_Some (positions l' !! ord_symbol o).
Proof.
  intros Hside Hq Hp Hcost Hsl Htp Hle.
  destruct (process_order o l) as [l' r] eqn:Hrun.
  monad_unfold. rewrite Hside, Hsl, Htp in Hrun. simpl in Hrun.
  path_split; Qprop; simpl in *; try lra;
    (eexists; split; [reflexivity|]; split; [reflexivity|]);
    simpl; rewrite lookup_insert_eq; eauto.
Qed.

(** Symbols other than the order's are never touched. *)
Lemma process_order_frame (o : Order) (l : Ledger) (s : string) :
  s <> ord_symbol o ->
  positions (fst (process_order o l)) !! s = positions l !! s.
Proof.
  intros Hs. assert (ord_symbol o <> s) as Hs' by congruence.
  monad_unfold; simpl.
  path_split; cbn [fst positions];
    repeat first [rewrite lookup_delete_ne by exact Hs'
                 | rewrite lookup_insert_ne by exact Hs'];
    reflexivity.
Qed.



(** *** The repository's own tests, replayed on the embedding *)

(** [test_buy_creates_position_and_updates_cash]. *)
Example test_buy_creates_position_and_updates_cash :
  let order := mkOrder "SBER" "BUY" 5 100 (Some 95) (Some 110) "t1" in
  let run := process_order order fresh_ledger in
  snd run = Ok tt
  /\ cash (fst run) == 500
  /\ (exists p, positions (fst run) !! "SBER" = Some p
                /\ pos_quantity p == 5 /\ pos_avg_price p == 100
                /\ pos_stop_loss p = Some 95 /\ pos_take_profit p = Some 110)
  /\ trades_log (fst run)
     = Some [log_header;
             [CStr "t1"; CStr "SBER"; CStr "BUY"; CNum 5; CNum 100;
              CNum 95; CNum 110; CNum 500]].
Proof.
  intros order run. subst run.
  split; [vm_compute; reflexivity|].
  split; [vm_compute; reflexivity|].
  split; [|vm_compute; reflexivity].
  eexists. split; [vm_compute; reflexivity|].
  repeat apply conj; vm_compute; reflexivity.
Qed.

(** [test_sell_closes_position_and_returns_cash]. *)
Example test_sell_closes_position_and_returns_cash :
  let l1 := fst (process_order buy_5_at_100 fresh_ledger) in
  let run := process_order (mkOrder "SBER" "SELL" 5 110 None None "t2") l1 in
  snd run = Ok tt
  /\ cash (fst run) == 1050
  /\ positions (fst run) !! "SBER" = None.
Proof. repeat apply conj; vm_compute; reflexivity. Qed.

(** [test_check_stop_loss_generates_order]. *)
Example test_check_stop_loss_generates_order :
  let l1 := fst (process_order (mkOrder "SBER" "BUY" 5 100 (Some 95) None "t1")
                   fresh_ledger) in
  exists stop_order,
    check_stop_take "SBER" 94 "t2" l1 = (l1, Ok (Some stop_order))
    /\ ord_side stop_order = "SELL"
    /\ ord_quantity stop_order == 5
    /\ snd (process_order stop_order l1) = Ok tt
    /\ positions (fst (process_order stop_order l1)) !! "SBER" = None.
Proof.
  eexists. split; [vm_compute; reflexivity|].
  repeat apply conj; vm_compute; reflexivity.
Qed.

(** *** Raising after the books were changed *)

(** C1.  The claim asks that a call of [process_order] that raises leave
    cash and positions as they were.  The code checks stop-loss against
    take-profit only after it has applied the trade: on a fresh ledger with
    cash 1000, BUY 5 @ 100 with stop-loss 110 and take-profit 95 raises,
    and yet cash has dropped to 500 and a position of 5 units at average
    price 100 is on the books.  No record is written. *)
Theorem process_order_raise_after_mutation :
  let order := mkOrder "SBER" "BUY" 5 100 (Some 110) (Some 95) "t1" in
  exists l',
    process_order order fresh_ledger = (l', Raise StopNotBelowTake)
    /\ cash fresh_ledger == 1000 /\ cash l' == 500
    /\ positions fresh_ledger !! "SBER" = None
    /\ (exists p, positions l' !! "SBER" = Some p
                  /\ pos_quantity p == 5 /\ pos_avg_price p == 100)
    /\ trades_log l' = trades_log fresh_ledger.
Proof.
  intros order.
  exists (fst (process_order order fresh_ledger)).
  split; [vm_compute; reflexivity|].
  split; [reflexivity|].
  split; [vm_compute; reflexivity|].
  split; [reflexivity|].
  split; [|vm_compute; reflexivity].
  eexists. split; [vm_compute; reflexivity|].
  split; vm_compute; reflexivity.
Qed.

(** *** Cash *)

Lemma ledger_trace_cash (l : Ledger) (orders : list Order) :
  0 <= cash l -> Forall (fun l' => 0 <= cash l') (ledger_trace l orders).
Proof.
  revert l. induction orders as [|o os IH]; intros l Hl; simpl.
  - constructor.
  - assert (0 <= cash (fst (process_order o l))) as Hstep.
    { destruct (process_order_cash o l) as [Heq|[(_ & Hle & Heq)|(_ & Hpos & Heq)]];
        rewrite Heq; lra. }
    constructor; [exact Hstep | apply IH, Hstep].
Qed.

(** What a call does to the cash and to the holding of its symbol:
    nothing, or a BUY that the cash covered, or a SELL. *)
Lemma process_order_money (o : Order) (l : Ledger) :
  let s := ord_symbol o in
  let cost := ord_quantity o * ord_price o in
  let l' := fst (process_order o l) in
  (cash l' = cash l /\ position_before l' s = position_before l s)
  \/ (ord_side o = "BUY" /\ 0 < cost /\ cost <= cash l /\ cash l' = cash l - cost)
  \/ (ord_side o = "SELL" /\ 0 < cost /\ cash l' = cash l + cost).
Proof.
  unfold position_before. monad_unfold; simpl.
  destruct (Qle_bool (ord_quantity o) 0) eqn:Hq; [by left|].
  destruct (Qle_bool (ord_price o) 0) eqn:Hp; [by left|].
  assert (0 < ord_quantity o * ord_price o) as Hcost.
  { Qprop. apply Qmult_lt_0_compat; assumption. }
  destruct (ord_side o =? "BUY")%string eqn:Hbuy.
  - apply String.eqb_eq in Hbuy.
    path_split; Qprop;
      first [ left; split; [done|]; simpl;
              repeat match goal with
                     | H : positions _ !! _ = _ |- _ => rewrite H
                     end;
              rewrite ?lookup_insert_eq; done
            | right; left; done ].
  - destruct (ord_side o =? "SELL")%string eqn:Hsell.
    + apply String.eqb_eq in Hsell.
      path_split; Qprop;
        first [ left; split; [done|]; simpl;
                repeat match goal with
                       | H : positions _ !! _ = _ |- _ => rewrite H
                       end;
                rewrite ?lookup_insert_eq; done
              | right; right; done ].
    + path_split; left; split; try done; simpl;
        repeat match goal with
               | H : positions _ !! _ = _ |- _ => rewrite H
               end;
        rewrite ?lookup_insert_eq; done.
Qed.

(** C2, on amounts that are numbers.  Read on exact numbers (every
    quantity, price and balance finite, no product or sum overflowing), a
    ledger built with a positive initial cash keeps [cash >= 0] after
    every call of every sequence of [process_order] calls, raising or
    not.  For every call on every ledger: a BUY leaves both the cash and
    the holding of its symbol as they were, or its cost
    [quantity * price] was at most the cash and is subtracted; a SELL
    never lowers the cash, which stays or grows by [quantity * price];
    an order of any other side leaves cash and holding alone.  On
    doubles the invariant fails: [FloatLedgerProofs] has the orders. *)
Theorem cash_never_negative (initial_cash : Q) (file : option (list csv_row))
    (l0 : Ledger) (orders : list Order) :
  0 < initial_cash ->
  PaperTrader_init initial_cash file = Ok l0 ->
  Forall (fun l => 0 <= cash l) (ledger_trace l0 orders)
  /\ (forall (o : Order) (l : Ledger),
        let s := ord_symbol o in
        let cost := ord_quantity o * ord_price o in
        let l' := fst (process_order o l) in
        (ord_side o = "BUY" ->
         (cash l' = cash l /\ position_before l' s = position_before l s)
         \/ (cost <= cash l /\ cash l' = cash l - cost))
        /\ (ord_side o = "SELL" ->
            cash l <= cash l' /\ (cash l' = cash l \/ cash l' = cash l + cost))
        /\ (ord_side o <> "BUY" -> ord_side o <> "SELL" ->
            cash l' = cash l /\ position_before l' s = position_before l s)).
Proof.
  intros Hpos Hinit. split.
  - apply ledger_trace_cash.
    unfold PaperTrader_init in Hinit.
    destruct (Qle_bool initial_cash 0); [discriminate|].
    injection Hinit as <-. simpl. lra.
  - intros o l s cost l'. subst s cost l'.
    destruct (process_order_money o l)
      as [[Hc Hp] | [(Hs & H0 & Hle & Hc) | (Hs & H0 & Hc)]].
    + split; [by left|]. split; [|done].
      intros _. split; [rewrite Hc; apply Qle_refl | by left].
    + split; [by right|]. split; intros; congruence.
    + split; [intros; congruence|].
      split; [|intros; congruence].
      intros _. split; [rewrite Hc; lra | by right].
Qed.

Lemma cash_never_negative_witness :
  Forall (fun l => 0 <= cash l)
    (ledger_trace fresh_ledger [buy_5_at_100; sell_5_at_80]).
Proof.
  apply (cash_never_negative 1000 None fresh_ledger [buy_5_at_100; sell_5_at_80]).
  - reflexivity.
  - reflexivity.
Defined.

(** *** The active-positions map *)

(** C3.  The claim asks that no zero-quantity entry be left in the map
    after any call, raising ones included.  The entry is created by
    [setdefault] before the funds or holdings are checked and is removed
    only at the end of the success path: on a fresh ledger with cash 1000,
    BUY 5 @ 1000 of a symbol never traded raises for lack of funds and
    leaves a zero-quantity position under that symbol. *)
Theorem process_order_raise_leaves_empty_position :
  let order := mkOrder "GAZP" "BUY" 5 1000 None None "t1" in
  exists l',
    process_order order fresh_ledger = (l', Raise InsufficientFunds)
    /\ positions fresh_ledger !! "GAZP" = None
    /\ positions l' !! "GAZP" = Some (new_Position "GAZP")
    /\ pos_quantity (new_Position "GAZP") == 0
    /\ ~ all_open (positions l').
Proof.
  intros order.
  exists (fst (process_order order fresh_ledger)).
  assert (positions (fst (process_order order fresh_ledger)) !! "GAZP"
          = Some (new_Position "GAZP")) as Hentry by (vm_compute; reflexivity).
  split; [vm_compute; reflexivity|].
  split; [reflexivity|].
  split; [exact Hentry|].
  split; [reflexivity|].
  intros Hopen. specialize (Hopen _ _ Hentry). simpl in Hopen. lra.
Qed.

(** *** Average entry price *)





(** *** Stop-loss and take-profit *)

Lemma is_set_and_true (o : option Q) (test : Q -> bool) :
  is_set_and o test = true <-> exists v, o = Some v /\ test v = true.
Proof.
  destruct o as [v|]; simpl; split.
  - eauto.
  - by intros (v' & [= <-] & Ht).
  - discriminate.
  - by intros (v' & [=] & _).
Qed.

Lemma is_set_and_false (o : option Q) (test : Q -> bool) :
  is_set_and o test = false <-> forall v, o = Some v -> test v = false.
Proof.
  destruct o as [v|]; simpl; split.
  - by intros Ht v' [= <-].
  - eauto.
  - discriminate.
  - done.
Qed.

(** C5.  [check_stop_take] leaves the ledger as it is and returns: nothing
    when the symbol has no open position; otherwise a SELL order for the
    whole quantity at the current price carrying the stop-loss, when a
    stop-loss is set and the price is at or below it; failing that, the
    same order carrying the take-profit, when a take-profit is set and the
    price is at or above it; failing both, nothing. *)
Theorem check_stop_take_contract (symbol : string) (current_price : Q)
    (now : string) (l : Ledger) :
  exists r,
    check_stop_take symbol current_price now l = (l, Ok r)
    /\ stop_take_spec l symbol current_price now r.
Proof.
  unfold check_stop_take, bind, get_positions, ret. simpl.
  destruct (positions l !! symbol) as [p|] eqn:Hp.
  2: { eexists; split; [reflexivity | by apply st_absent]. }
  destruct (Qeq_bool (pos_quantity p) 0) eqn:Hz.
  { apply Qeq_bool_iff in Hz.
    eexists; split; [reflexivity | by eapply st_empty]. }
  apply Qeq_bool_neq in Hz.
  destruct (is_set_and (pos_stop_loss p) _) eqn:Hsl.
  { apply is_set_and_true in Hsl as (sl & Hsl & Hle).
    apply Qle_bool_iff in Hle. rewrite Hsl.
    eexists; split; [reflexivity | by eapply st_stop_loss]. }
  assert (forall sl, pos_stop_loss p = Some sl -> sl < current_price) as Hnsl.
  { intros sl Hs. rewrite is_set_and_false in Hsl.
    by apply Qle_bool_false, Hsl. }
  destruct (is_set_and (pos_take_profit p) _) eqn:Htp.
  { apply is_set_and_true in Htp as (tp & Htp & Hge).
    apply Qle_bool_iff in Hge. rewrite Htp.
    eexists; split; [reflexivity | by eapply st_take_profit]. }
  eexists; split; [reflexivity|].
  eapply st_hold; eauto.
  intros tp Ht. rewrite is_set_and_false in Htp.
  by apply Qle_bool_false, Htp.
Qed.

(** The contract leaves no choice: it names one result. *)
Lemma stop_take_spec_functional (l : Ledger) (symbol : string)
    (current_price : Q) (now : string) (r1 r2 : option Order) :
  stop_take_spec l symbol current_price now r1 ->
  stop_take_spec l symbol current_price now r2 ->
  r1 = r2.
Proof.
  intros H1 H2.
  destruct H1; destruct H2; simplify_eq; try done;
    repeat match goal with
    | Hall : forall v, ?o = Some v -> _, Hs : ?o = Some _ |- _ =>
        specialize (Hall _ Hs)
    end; lra.
Qed.

(** C10.  An entry of the positions map whose quantity is zero never
    yields an exit order, at any price. *)
Theorem check_stop_take_zero_quantity (symbol : string) (current_price : Q)
    (now : string) (l : Ledger) (p : Position) :
  positions l !! symbol = Some p ->
  pos_quantity p == 0 ->
  check_stop_take symbol current_price now l = (l, Ok None).
Proof.
  intros Hp Hz.
  unfold check_stop_take, bind, get_positions, ret. simpl.
  rewrite Hp.
  apply Qeq_bool_iff in Hz. by rewrite Hz.
Qed.

Lemma check_stop_take_zero_quantity_witness :
  check_stop_take "GAZP" 94 "t" stale_ledger = (stale_ledger, Ok None).
Proof.
  apply (check_stop_take_zero_quantity "GAZP" 94 "t" stale_ledger stale_position).
  - vm_compute. reflexivity.
  - reflexivity.
Defined.

(** *** The loss scenario and its report *)

(** C9.  From cash 1000, BUY 5 @ 100 and then SELL 5 @ 80 leave cash 900;
    the cash series read back from the log is 1000, 500, 900, and the
    report for initial cash 1000 has final balance 900, P&L -100, return
    -10 % and maximum drawdown 50 %, the drop from the running peak 1000
    to 500. *)
Theorem loss_scenario_report :
  exists l0 l1 l2 report,
    PaperTrader_init 1000 None = Ok l0
    /\ process_order buy_5_at_100 l0 = (l1, Ok tt)
    /\ cash l1 == 500
    /\ process_order sell_5_at_80 l1 = (l2, Ok tt)
    /\ cash l2 == 900
    /\ positions l2 !! "SBER" = None
    /\ _read_cash_series (trades_log l2) 1000 = [1000; 500; 900]
    /\ generate_report 1000 (trades_log l2) = Ok report
    /\ final_balance report == 900
    /\ pnl report == -100
    /\ return_pct report == -10
    /\ max_drawdown_pct report == 50.
Proof.
  exists fresh_ledger.
  exists (fst (process_order buy_5_at_100 fresh_ledger)).
  exists (fst (process_order sell_5_at_80
                 (fst (process_order buy_5_at_100 fresh_ledger)))).
  eexists.
  split; [reflexivity|].
  do 6 (split; [vm_compute; reflexivity|]).
  split; [vm_compute; reflexivity|].
  repeat apply conj; vm_compute; reflexivity.
Qed.

End LedgerProofs.

(** * Proofs: the ledger on doubles *)

Module FloatLedgerProofs.
Import FloatTrader FloatLedgerSpec.

(** The overflow scenario, call by call: every call returns normally;
    the cash is 999, then infinite, then NaN. *)
Example overflow_scenario :
  exists l0,
    PaperTrader_init 1000%float None = Ok l0
    /\ outcomes l0 overflow_orders = [Ok tt; Ok tt; Ok tt]
    /\ cash <$> ledger_trace l0 overflow_orders
       = [999%float; PrimFloat.infinity; PrimFloat.nan].
Proof.
  eexists. split; [reflexivity|].
  split; vm_compute; reflexivity.
Qed.

(** A NaN price passes the guard [price <= 0] and the funds check: the
    order is accepted and the cash is NaN after one call. *)
Example nan_price_scenario :
  exists l0 l1,
    PaperTrader_init 1000%float None = Ok l0
    /\ process_order nan_price_order l0 = (l1, Ok tt)
    /\ PrimFloat.is_nan (cash l1) = true
    /\ (0 <=? cash l1)%float = false.
Proof.
  eexists. eexists. split; [reflexivity|].
  split; [vm_compute; reflexivity|].
  split; vm_compute; reflexivity.
Qed.

(** C2, as the specification words it, fails on the code's own numbers:
    after the three finite orders of the overflow scenario the cash of a
    ledger built with 1000 is NaN, which is not [>= 0]. *)
Lemma cash_rule_fails : ~ cash_rule.
Proof.
  intros Hrule.
  specialize (Hrule 1000%float None _ overflow_orders eq_refl eq_refl).
  apply Forall_cons in Hrule as [_ Hrule].
  apply Forall_cons in Hrule as [_ Hrule].
  apply Forall_cons in Hrule as [Hcash _].
  vm_compute in Hcash. discriminate Hcash.
Qed.

(** *** Which orders are accepted *)










End FloatLedgerProofs.

(** * Proofs: the market-data client *)

Module ClientProofs.
Import AlorClient ClientSpec.

(** *** The historical query *)

Lemma str_prefix_truncated (n : nat) (s : string) :
  truncated_to n s (str_prefix n s).
Proof.
  unfold truncated_to. revert n.
  induction s as [|c s IH]; intros n; simpl.
  - exists "". by destruct n.
  - destruct (is_continuation c) eqn:Hc.
    + destruct (IH n) as (rest & Heq & Hcount & Hrest).
      exists rest. split.
      * change (String c s = String c (str_prefix n s ++ rest)). congruence.
      * cbn [char_count]. by rewrite Hc.
    + destruct n as [|n].
      * exists (String c s). cbn [starts_inside_char char_count]. by rewrite Hc.
      * destruct (IH n) as (rest & Heq & Hcount & Hrest).
        exists rest. split.
        -- change (String c s = String c (str_prefix n s ++ rest)). congruence.
        -- cbn [char_count]. rewrite Hc, Hcount. done.
Qed.

(** Characters, not bytes, are counted: two Cyrillic letters are four
    bytes. *)
Example str_prefix_counts_characters :
  str_prefix 2 "дом" = "до" /\ String.length (str_prefix 2 "дом") = 4%nat.
Proof. split; reflexivity. Qed.

Lemma is_None_false (v : json) : is_None v = false <-> v <> JNull.
Proof. destruct v; simpl; split; congruence. Qed.

(** What line 91 extracts from a decoded body is its candle data, and it
    is [None] exactly when the body has none. *)
Lemma candles_of_body (body : json) :
  let candles := match body with
                 | JObj members => dict_get "candles" members
                 | _ => body
                 end in
  (is_None candles = false /\ candle_data body candles)
  \/ (is_None candles = true /\ no_candle_data body).
Proof.
  intros candles. destruct (is_None candles) eqn:Hn; [right | left]; split; try done.
  - subst candles. destruct body; simpl in Hn; try done; [by left|].
    right. exists members. split; [done|]. by destruct (dict_get "candles" members).
  - apply is_None_false in Hn. subst candles.
    destruct body; try (by apply cd_bare).
    apply cd_member; [|exact Hn].
    unfold dict_get in Hn |- *.
    by destruct (members_lookup "candles" members).
Qed.

Lemma get_historical_candles_relates (self : AlorClient)
    (symbol exchange interval : string) (limit : Z) :
  candles_contract
    (_session self (candles_request self symbol exchange interval limit))
    (get_historical_candles self symbol exchange interval limit).
Proof.
  unfold get_historical_candles, _safe_get, _safe_json, candles_request.
  cbn [cr_limit cr_interval].
  destruct (_session self _) as [detail | r]; [constructor|].
  destruct (status_code r =? 401)%Z eqn:H401.
  { apply Z.eqb_eq in H401. by constructor. }
  apply Z.eqb_neq in H401.
  destruct (ok r) eqn:Hok; cbn [negb].
  2: { apply cc_bad_status; [done | done | apply str_prefix_truncated]. }
  destruct (resp_json r) as [body|] eqn:Hjson.
  2: { by apply cc_not_json. }
  destruct (candles_of_body body) as [[Hn Hc] | [Hn Hc]]; cbv zeta in Hn; rewrite Hn.
  - by eapply cc_candles.
  - by eapply cc_no_candles.
Qed.

(** A body without candle data has none to return. *)
Lemma no_candle_data_none (body c : json) :
  no_candle_data body -> ~ candle_data body c.
Proof.
  intros [-> | (members & -> & Hnull)] Hc; inversion Hc; subst; try done.
  unfold dict_get in Hnull.
  match goal with H : members_lookup _ _ = Some _ |- _ => rewrite H in Hnull end.
  done.
Qed.

(** C7, as the code has it.  The historical query maps what the HTTP
    session does to its result as follows: a request failure raises
    [AlorConnectionError]; a response with status 401 raises
    [AlorAuthError]; any other response that is not [ok] raises
    [AlorAPIError] with the status and the text cut to its first 200
    characters; a body that is not JSON raises [AlorAPIError]; a JSON
    body without candle data, that is [null] or an object whose
    [candles] member is missing or [null], raises [AlorAPIError].  An
    exception comes from one of these five cases only.  A result is the
    candle data of the body, unchanged: the [candles] member of an
    object, and the body itself when it is not an object, be it an
    array, a number, a string or a boolean. *)
Theorem get_historical_candles_contract (self : AlorClient)
    (symbol exchange interval : string) (limit : Z) :
  let session_does :=
    _session self (candles_request self symbol exchange interval limit) in
  let result := get_historical_candles self symbol exchange interval limit in
  candles_contract session_does result
  /\ (forall e, result = Raise e ->
        (exists detail, session_does = GetRaises detail
                        /\ is_AlorConnectionError e = true)
        \/ exists r, session_does = GetReturns r /\
             ((status_code r = 401%Z /\ is_AlorAuthError e = true)
              \/ (status_code r <> 401%Z /\ ok r = false
                  /\ exists body_prefix,
                       truncated_to 200 (text r) body_prefix
                       /\ e = AlorAPIError (MsgBadStatus (status_code r) body_prefix))
              \/ (status_code r <> 401%Z /\ ok r = true /\ resp_json r = None
                  /\ e = AlorAPIError MsgBadResponseJson)
              \/ (status_code r <> 401%Z /\ ok r = true
                  /\ (exists body, resp_json r = Some body /\ no_candle_data body)
                  /\ e = AlorAPIError MsgNoCandles)))
  /\ (forall candles, result = Ok candles ->
        exists r body,
          session_does = GetReturns r /\ status_code r <> 401%Z /\ ok r = true
          /\ resp_json r = Some body /\ candle_data body candles)
  /\ (forall r body,
        session_does = GetReturns r -> status_code r <> 401%Z -> ok r = true ->
        resp_json r = Some body ->
        (isinstance_dict body = false -> body <> JNull -> result = Ok body)
        /\ (no_candle_data body -> result = Raise (AlorAPIError MsgNoCandles))).
Proof.
  intros session_does result.
  pose proof (get_historical_candles_relates self symbol exchange interval limit)
    as Hrel.
  fold session_does result in Hrel.
  split; [exact Hrel|]. split; [|split].
  - intros e He. rewrite He in Hrel.
    inversion Hrel; subst.
    + left. eauto.
    + right. eexists. split; [done|]. left. done.
    + right. eexists. split; [done|]. right. left. eauto 10.
    + right. eexists. split; [done|]. right. right. left. eauto 10.
    + right. eexists. split; [done|]. right. right. right. eauto 10.
  - intros candles Hc. rewrite Hc in Hrel.
    inversion Hrel; subst. eauto 10.
  - intros r body Hs H401 Hok Hjson. rewrite Hs in Hrel.
    split.
    + intros Hd Hne.
      inversion Hrel; subst; try congruence.
      * match goal with
        | H1 : resp_json r = Some ?b, H2 : no_candle_data ?b |- _ =>
            rewrite Hjson in H1; injection H1 as <-;
            exfalso; apply (no_candle_data_none body body H2); by apply cd_bare
        end.
      * match goal with
        | H1 : resp_json r = Some ?b, H2 : candle_data ?b _ |- _ =>
            rewrite Hjson in H1; injection H1 as <-;
            inversion H2; subst; [done | congruence]
        end.
    + intros Hno.
      inversion Hrel; subst; try congruence.
      match goal with
      | H1 : resp_json r = Some ?b, H2 : candle_data ?b ?c |- _ =>
          rewrite Hjson in H1; injection H1 as <-;
          exfalso; by apply (no_candle_data_none body c Hno)
      end.
Qed.

(** C7, as the specification words it, fails: a successful response
    whose body is the number 42 has no candle field, and the call returns
    the 42. *)
Lemma candles_rule_fails : ~ candles_rule.
Proof.
  intros Hrule.
  destruct (Hrule (mock_client (mkResponse 200 true "42" (Some (JNum 42))))
              "SBER" "MOEX" "1" 50%Z
              (mkResponse 200 true "42" (Some (JNum 42))) (JNum 42))
    as (m & Hraise); try done.
  intros (members & c & Hobj & _). discriminate Hobj.
Qed.

(** [test_get_historical_candles_raises_on_invalid_token]. *)
Example test_get_historical_candles_raises_on_invalid_token :
  get_historical_candles (mock_client (mkResponse 401 false "Unauthorized" None))
    "SBER" "MOEX" "1" 50
  = Raise (AlorAuthError MsgInvalidToken).
Proof. reflexivity. Qed.

Example get_historical_candles_server_error :
  get_historical_candles (mock_client (mkResponse 500 false "overloaded" None))
    "SBER" "MOEX" "1" 50
  = Raise (AlorAPIError (MsgBadStatus 500 "overloaded")).
Proof. reflexivity. Qed.

(** A body that is not an object is returned as it is. *)
Example get_historical_candles_bare_body :
  get_historical_candles (mock_client (mkResponse 200 true "42" (Some (JNum 42))))
    "SBER" "MOEX" "1" 50
  = Ok (JNum 42)
  /\ get_historical_candles
       (mock_client (mkResponse 200 true "[]" (Some sample_candles)))
       "SBER" "MOEX" "1" 50
     = Ok sample_candles.
Proof. split; reflexivity. Qed.

Example get_historical_candles_request :
  candles_request (mock_client (mkResponse 200 true "" None)) "SBER" "MOEX" "1" 50
  = mkRequest "https://example.com/md/v2/history/MOEX/SBER"
      [("Authorization", "Bearer test-token"); ("Accept", "application/json")]
      [("limit", PInt 50); ("timeframe", PStr "1")] 10.
Proof. reflexivity. Qed.

Lemma get_historical_candles_contract_witness :
  exists r body,
    GetReturns (mkResponse 200 true "" (Some (JObj [("candles", sample_candles)])))
    = GetReturns r
    /\ status_code r <> 401%Z /\ ok r = true
    /\ resp_json r = Some body /\ candle_data body sample_candles.
Proof.
  apply (proj1 (proj2 (proj2 (get_historical_candles_contract
                                (mock_client
                                   (mkResponse 200 true ""
                                      (Some (JObj [("candles", sample_candles)]))))
                                "SBER" "MOEX" "1" 50)))).
  reflexivity.
Defined.

(** *** The streaming subscription *)

Section Stream.

Variable utf8_decode : string -> option string.
Variable json_loads : string -> option json.
Variables symbol exchange : string.
Variable cb : callback.
Variable reconnect_attempts : Z.
Variable reconnect_delay : Q.

Lemma dispatch_log (payload : json) (tr : stream_log) :
  _dispatch_callback cb payload tr
  = (log_dispatch payload tr, call cb (dispatched tr) payload).
Proof. unfold _dispatch_callback. by destruct (iscoroutinefunction cb). Qed.

Lemma log_dispatches_nil (tr : stream_log) : log_dispatches [] tr = tr.
Proof. destruct tr. unfold log_dispatches. simpl. by rewrite app_nil_r. Qed.

Lemma log_dispatches_cons (p : json) (ps : list json) (tr : stream_log) :
  log_dispatches ps (log_dispatch p tr) = log_dispatches (p :: ps) tr.
Proof.
  unfold log_dispatches, log_dispatch. simpl. by rewrite <- app_assoc.
Qed.

Lemma log_dispatches_snoc (p : json) (ps : list json) (tr : stream_log) :
  log_dispatch p (log_dispatches ps tr) = log_dispatches (ps ++ [p]) tr.
Proof.
  unfold log_dispatches, log_dispatch. simpl. by rewrite app_assoc.
Qed.

Lemma delivered_length (hist : list json) (raws : list raw_message)
    (payloads : list json) :
  delivered utf8_decode json_loads cb hist raws payloads ->
  length raws = length payloads.
Proof.
  revert hist payloads. induction raws as [|raw raws IH];
    intros hist [|p ps]; simpl; try done.
  intros (_ & _ & Hd). f_equal. eauto.
Qed.

(** Messages that are delivered below the limit are consumed one by one. *)
Lemma receive_loop_delivered (max_messages : option Z)
    (raws : list raw_message) (payloads : list json) (more : list recv_event)
    (received : Z) (tr : stream_log) :
  delivered utf8_decode json_loads cb (dispatched tr) raws payloads ->
  (forall k : Z, (1 <= k <= Z.of_nat (length raws))%Z ->
                 reached max_messages (received + k) = false) ->
  receive_loop utf8_decode json_loads cb max_messages
    (map RecvMessage raws ++ more) received tr
  = receive_loop utf8_decode json_loads cb max_messages more
      (received + Z.of_nat (length raws)) (log_dispatches payloads tr).
Proof.
  revert payloads received tr.
  induction raws as [|raw raws IH]; intros [|p ps] received tr; simpl; try done.
  - intros _ _. by rewrite Z.add_0_r, log_dispatches_nil.
  - intros (Hparse & Hcall & Hrest) Hlimit.
    rewrite Hparse, dispatch_log, Hcall.
    rewrite (Hlimit 1%Z) by lia.
    rewrite (IH ps (received + 1)%Z (log_dispatch p tr)).
    + rewrite log_dispatches_cons. f_equal. lia.
    + exact Hrest.
    + intros k Hk.
      replace (received + 1 + k)%Z with (received + (k + 1))%Z by lia.
      apply Hlimit. lia.
Qed.

(** The message that reaches the limit ends the call. *)
Lemma receive_loop_until_max (n : Z) (raws : list raw_message)
    (payloads : list json) (more : list recv_event) (received : Z)
    (tr : stream_log) :
  delivered utf8_decode json_loads cb (dispatched tr) raws payloads ->
  raws <> [] ->
  (received + Z.of_nat (length raws) = n)%Z ->
  receive_loop utf8_decode json_loads cb (Some n)
    (map RecvMessage raws ++ more) received tr
  = (BodyReturns, log_dispatches payloads tr).
Proof.
  revert payloads received tr.
  induction raws as [|raw raws IH]; intros [|p ps] received tr; simpl; try done.
  intros (Hparse & Hcall & Hrest) _ Hn.
  rewrite Hparse, dispatch_log, Hcall.
  destruct raws as [|raw' raws].
  - destruct ps; [|done]. simpl in Hn.
    replace (n <=? received + 1)%Z with true by lia.
    unfold log_dispatches, log_dispatch. done.
  - replace (n <=? received + 1)%Z with false by (simpl in Hn; lia).
    rewrite (IH ps (received + 1)%Z (log_dispatch p tr)).
    + by rewrite log_dispatches_cons.
    + exact Hrest.
    + done.
    + simpl in Hn |- *. lia.
Qed.

(** Reaching the limit ends the subscription from any state of the retry
    loop: nothing is slept, no attempt is counted. *)
Lemma subscribe_loop_max_messages (n : Z) (c : connection)
    (rest : list connection) (raws : list raw_message) (payloads : list json)
    (more : list recv_event) (attempts : Z) (tr : stream_log) :
  (attempts <= reconnect_attempts)%Z ->
  (0 < n)%Z ->
  on_enter c = None ->
  on_send c = None ->
  frames c = (map RecvMessage raws ++ more)%list ->
  Z.of_nat (length raws) = n ->
  delivered utf8_decode json_loads cb (dispatched tr) raws payloads ->
  subscribe_loop utf8_decode json_loads symbol exchange cb reconnect_attempts
    reconnect_delay (Some n) (c :: rest) attempts tr
  = (Returned,
     log_dispatches payloads (log_send (subscribe_message symbol exchange) tr)).
Proof.
  intros Hatt Hn Henter Hsend Hframes Hlen Hdel. simpl.
  replace (attempts <=? reconnect_attempts)%Z with true by lia.
  unfold try_body. rewrite Henter, Hsend, Hframes.
  rewrite (receive_loop_until_max n raws payloads); try done.
  intros ->. simpl in Hlen. lia.
Qed.

(** C8, as the code has it.  The messages are counted per connection:
    the counter starts at zero each time a connection is opened.  With
    [max_messages] a positive [n], at any point of the retry loop (any
    number of attempts made, as long as one is left, and any messages
    handed over before), when the connection now opened takes the
    subscription frame and delivers [n] well-formed messages on which
    the callback returns normally, the call returns at the [n]-th: the
    callback has been given exactly those [n] payloads on this
    connection, after whatever it was given on earlier ones, one
    subscription frame was sent, nothing more was slept and nothing is
    raised.  On the first connection this is the whole log: [n]
    payloads, one frame, no sleep. *)
Theorem subscribe_quotes_max_messages (n : Z) (c : connection)
    (rest : list connection) (raws : list raw_message) (payloads : list json)
    (more : list recv_event) (attempts : Z) (tr : stream_log) :
  (attempts <= reconnect_attempts)%Z ->
  (0 < n)%Z ->
  on_enter c = None ->
  on_send c = None ->
  frames c = (map RecvMessage raws ++ more)%list ->
  Z.of_nat (length raws) = n ->
  delivered utf8_decode json_loads cb (dispatched tr) raws payloads ->
  subscribe_loop utf8_decode json_loads symbol exchange cb reconnect_attempts
    reconnect_delay (Some n) (c :: rest) attempts tr
  = (Returned,
     mkStreamLog (sent_frames tr ++ [subscribe_message symbol exchange])
       (dispatched tr ++ payloads) (sleeps tr))
  /\ Z.of_nat (length payloads) = n
  /\ (attempts = 0%Z -> tr = empty_log ->
      subscribe_quotes utf8_decode json_loads symbol exchange cb
        reconnect_attempts reconnect_delay (Some n) (c :: rest)
      = (Returned, mkStreamLog [subscribe_message symbol exchange] payloads [])).
Proof.
  intros Hatt Hn Henter Hsend Hframes Hlen Hdel.
  assert (subscribe_loop utf8_decode json_loads symbol exchange cb
            reconnect_attempts reconnect_delay (Some n) (c :: rest) attempts tr
          = (Returned,
             mkStreamLog (sent_frames tr ++ [subscribe_message symbol exchange])
               (dispatched tr ++ payloads) (sleeps tr))) as Hrun
    by (by rewrite (subscribe_loop_max_messages n c rest raws payloads more)).
  split; [exact Hrun|]. split.
  - by rewrite <- (delivered_length _ _ _ Hdel).
  - intros -> ->. unfold subscribe_quotes. by rewrite Hrun.
Qed.

(** C6, as the code has it.  When the callback raises [e] on a message
    (after any number of messages delivered below the limit), the
    subscription ends as follows.  An [AlorAuthError] reaches the caller
    unwrapped.  A websocket exception ([ConnectionClosedError],
    [WebSocketException]) is handled as a lost connection: it counts one
    attempt, and the call raises [AlorConnectionError] when the attempts
    are used up and otherwise sleeps and reconnects.  Every other error,
    an [AlorConnectionError] included, reaches the caller wrapped in an
    [AlorAPIError]. *)
Theorem callback_error_surfacing (max_messages : option Z) (c : connection)
    (rest : list connection) (attempts : Z) (tr : stream_log)
    (raws : list raw_message) (payloads : list json) (raw : raw_message)
    (more : list recv_event) (payload : json) (e : exn) :
  (attempts <= reconnect_attempts)%Z ->
  on_enter c = None ->
  on_send c = None ->
  frames c = (map RecvMessage raws ++ RecvMessage raw :: more)%list ->
  delivered utf8_decode json_loads cb (dispatched tr) raws payloads ->
  (forall k : Z, (1 <= k <= Z.of_nat (length raws))%Z ->
                 reached max_messages k = false) ->
  _parse_ws_message utf8_decode json_loads raw = Ok payload ->
  call cb (dispatched tr ++ payloads)%list payload = Some e ->
  let tr' := log_dispatches (payloads ++ [payload])
               (log_send (subscribe_message symbol exchange) tr) in
  let run := subscribe_loop utf8_decode json_loads symbol exchange cb
               reconnect_attempts reconnect_delay max_messages (c :: rest)
               attempts tr in
  (is_AlorAuthError e = true -> run = (Raised e, tr'))
  /\ (is_WebSocketException e = true ->
      run = if (reconnect_attempts <? attempts + 1)%Z
            then (Raised (AlorConnectionError MsgNotRestored), tr')
            else subscribe_loop utf8_decode json_loads symbol exchange cb
                   reconnect_attempts reconnect_delay max_messages rest
                   (attempts + 1) (log_sleep reconnect_delay tr'))
  /\ (is_AlorAuthError e = false -> is_WebSocketException e = false ->
      run = (Raised (AlorAPIError (MsgUnhandled e)), tr'))
  /\ (is_AlorConnectionError e = true ->
      run = (Raised (AlorAPIError (MsgUnhandled e)), tr')).
Proof.
  intros Hatt Henter Hsend Hframes Hdel Hlimit Hparse Hcall tr' run.
  assert (try_body utf8_decode json_loads symbol exchange cb max_messages c tr
          = (BodyRaises e, tr')) as Hbody.
  { unfold try_body. rewrite Henter, Hsend, Hframes.
    rewrite (receive_loop_delivered max_messages raws payloads); [|exact Hdel|].
    - simpl. rewrite Hparse, dispatch_log. simpl. rewrite Hcall.
      subst tr'. by rewrite log_dispatches_snoc.
    - intros k Hk. rewrite Z.add_0_l. by apply Hlimit. }
  assert (run = if is_WebSocketException e then
                  if (reconnect_attempts <? attempts + 1)%Z
                  then (Raised (AlorConnectionError MsgNotRestored), tr')
                  else subscribe_loop utf8_decode json_loads symbol exchange cb
                         reconnect_attempts reconnect_delay max_messages rest
                         (attempts + 1) (log_sleep reconnect_delay tr')
                else if is_AlorAuthError e then (Raised e, tr')
                else (Raised (AlorAPIError (MsgUnhandled e)), tr')) as Hrun.
  { subst run. simpl.
    replace (attempts <=? reconnect_attempts)%Z with true by lia.
    by rewrite Hbody. }
  rewrite Hrun. repeat split.
  - intros Ha. by destruct e.
  - by intros ->.
  - by intros -> ->.
  - intros Hc. by destruct e.
Qed.

End Stream.

Lemma callback_error_surfacing_witness :
  subscribe_loop toy_decode toy_loads "SBER" "MOEX" (failing_callback link_down)
    3 1 None [one_frame] 0 empty_log
  = (Raised (AlorAPIError (MsgUnhandled link_down)),
     mkStreamLog [subscribe_message "SBER" "MOEX"] [quote] []).
Proof.
  apply (callback_error_surfacing toy_decode toy_loads "SBER" "MOEX"
           (failing_callback link_down) 3 1 None one_frame [] 0 empty_log
           [] [] (RawStr "{}") [] quote link_down).
  - lia.
  - reflexivity.
  - reflexivity.
  - reflexivity.
  - simpl. exact I.
  - simpl. lia.
  - reflexivity.
  - reflexivity.
  - reflexivity.
Defined.

(** C6, as the specification words it, fails: an [AlorConnectionError]
    raised by the callback reaches the caller as a plain [AlorAPIError]
    that wraps it. *)
Lemma callback_error_rule_fails : ~ callback_error_rule.
Proof.
  intros Hrule.
  specialize (Hrule toy_decode toy_loads "SBER" "MOEX"
                (failing_callback link_down)
                3%Z 1 None one_frame [] (RawStr "{}") [] quote link_down).
  simpl in Hrule.
  assert (Raised (AlorAPIError (MsgUnhandled link_down)) = Raised link_down)
    as Habs.
  { apply Hrule; (lia || reflexivity). }
  discriminate Habs.
Qed.

Lemma subscribe_quotes_max_messages_witness :
  subscribe_loop toy_decode toy_loads "SBER" "MOEX" quiet_callback 3 1 (Some 1%Z)
    [one_frame] 1
    (mkStreamLog [subscribe_message "SBER" "MOEX"] [quote] [1])
  = (Returned,
     mkStreamLog [subscribe_message "SBER" "MOEX"; subscribe_message "SBER" "MOEX"]
       [quote; quote] [1]).
Proof.
  apply (subscribe_quotes_max_messages toy_decode toy_loads "SBER" "MOEX"
           quiet_callback 3 1 1 one_frame [] [RawStr "{}"] [quote] [] 1
           (mkStreamLog [subscribe_message "SBER" "MOEX"] [quote] [1])).
  - lia.
  - lia.
  - reflexivity.
  - reflexivity.
  - reflexivity.
  - reflexivity.
  - simpl. repeat split; reflexivity.
Defined.

(** [test_subscribe_quotes_passes_payload_to_callback]: with [max_messages = 1] on
    the first connection exactly one message is dispatched. *)
Example subscribe_quotes_one_message :
  subscribe_quotes toy_decode toy_loads "SBER" "MOEX" quiet_callback 3 1 (Some 1%Z)
    [one_frame]
  = (Returned, mkStreamLog [subscribe_message "SBER" "MOEX"] [quote] []).
Proof. reflexivity. Qed.

(** C8, as the specification words it, fails.  The stream delivers two
    well-formed messages, one before the connection is lost and one
    after; with [max_messages = 2] the call has handed both to the
    callback and still waits for a second message on the new connection,
    having slept once. *)
Lemma max_messages_rule_fails : ~ max_messages_rule.
Proof.
  intros Hrule.
  destruct (Hrule toy_decode toy_loads "SBER" "MOEX" quiet_callback 3%Z 1 2%Z
              [one_frame_then_lost; one_frame]
              ([RawStr "{}"] ++ [RawStr "{}"])%list [quote; quote])
    as (Hout & _).
  - lia.
  - simpl. lia.
  - apply (sd_lost one_frame_then_lost ConnectionClosedError [one_frame]
             [RawStr "{}"] [RawStr "{}"]); try reflexivity.
    by apply sd_last.
  - reflexivity.
  - simpl. repeat split; reflexivity.
  - vm_compute in Hout. discriminate Hout.
Qed.

Example max_messages_across_reconnect :
  subscribe_quotes toy_decode toy_loads "SBER" "MOEX" quiet_callback 3 1 (Some 2%Z)
    [one_frame_then_lost; one_frame]
  = (Blocked,
     mkStreamLog [subscribe_message "SBER" "MOEX"; subscribe_message "SBER" "MOEX"]
       [quote; quote] [1]).
Proof. reflexivity. Qed.

End ClientProofs.

(** * Proofs: further properties of the ledger *)

Module LedgerLawsProofs.
Import PaperTrader Reporting LedgerSpec LedgerLaws LedgerProofs.

(** *** Running the monad *)

Lemma bind_ok {A B : Type} (m : M A) (k : A -> M B) (l l' : Ledger) (b : B) :
  bind m k l = (l', Ok b) ->
  exists l1 a, m l = (l1, Ok a) /\ k a l1 = (l', Ok b).
Proof.
  unfold bind. destruct (m l) as [l1 [a|e]]; [eauto | discriminate].
Qed.


(** [process_order] is the sequence of its phases. *)
Lemma process_order_phases (order : Order) :
  process_order order
  = (let s := ord_symbol order in
     if Qle_bool (ord_quantity order) 0 then raise QuantityNotPositive else
     if Qle_bool (ord_price order) 0 then raise PriceNotPositive else
     position <- positions_setdefault s (new_Position s) ;;
     position <- trade_phase order position ;;
     stops_check order ;;
     position <- stops_phase order position ;;
     _log_trade order position ;;
     if Qeq_bool (pos_quantity position) 0 then positions_pop s else ret tt).
Proof. reflexivity. Qed.

Lemma setdefault_run (s : string) (l : Ledger) :
  positions_setdefault s (new_Position s) l
  = (mkLedger (cash l) (<[s := position_before l s]> (positions l)) (trades_log l),
     Ok (position_before l s)).
Proof.
  unfold positions_setdefault, position_before.
  destruct (positions l !! s) as [p|] eqn:Hp; simpl; [|done].
  rewrite insert_id by done. by destruct l.
Qed.

Lemma trade_phase_ok (o : Order) (pos p : Position) (l l' : Ledger) :
  trade_phase o pos l = (l', Ok p) ->
  p = traded o pos
  /\ l' = mkLedger (if ord_side o =? "BUY"
                    then cash l - ord_quantity o * ord_price o
                    else cash l + ord_quantity o * ord_price o)
            (<[ord_symbol o := p]> (positions l)) (trades_log l)
  /\ ((ord_side o = "BUY" /\ ord_quantity o * ord_price o <= cash l)
      \/ (ord_side o = "SELL" /\ ord_quantity o <= pos_quantity pos)).
Proof.
  unfold trade_phase, traded.
  destruct (ord_side o =? "BUY") eqn:Hbuy.
  - apply String.eqb_eq in Hbuy. rewrite Hbuy. intros H.
    monad_unfold; simpl in *. path_split; Qprop; auto.
  - destruct (ord_side o =? "SELL") eqn:Hsell; [|discriminate].
    apply String.eqb_eq in Hsell. rewrite Hsell. intros H.
    monad_unfold; simpl in *. path_split; Qprop; auto.
Qed.


Lemma stops_check_run (o : Order) (l l' : Ledger) (r : result ValueError unit) :
  stops_check o l = (l', r) ->
  l' = l
  /\ ((r = Ok tt /\ stops_consistent o)
      \/ (r = Raise StopNotBelowTake /\ ~ stops_consistent o)).
Proof.
  unfold stops_check, stops_consistent. intros H.
  monad_unfold; simpl in *. path_split; Qprop; split; auto; right; split; auto; lra.
Qed.

Lemma stops_phase_run (o : Order) (pos : Position) (l : Ledger) :
  positions l !! ord_symbol o = Some pos ->
  stops_phase o pos l
  = (mkLedger (cash l) (<[ord_symbol o := with_stops o pos]> (positions l))
       (trades_log l),
     Ok (with_stops o pos)).
Proof.
  intros Hpos. unfold stops_phase, with_stops, overwrite.
  monad_unfold; simpl.
  destruct pos as [sy q a sl tp]; simpl in *.
  destruct l as [c m lg]; simpl in *.
  path_split; simpl; rewrite ?insert_insert_eq; try done.
  by rewrite insert_id.
Qed.

Lemma log_trade_run (o : Order) (p : Position) (l : Ledger) :
  _log_trade o p l
  = (mkLedger (cash l) (positions l)
       (Some (default [] (trades_log l)
              ++ [[CStr (ord_timestamp o); CStr (ord_symbol o); CStr (ord_side o);
                   CNum (ord_quantity o); CNum (ord_price o);
                   opt_cell (pos_stop_loss p); opt_cell (pos_take_profit p);
                   CNum (cash l)]])%list),
     Ok tt).
Proof.
  unfold _log_trade, bind, get_cash, append_row. simpl.
  by destruct (trades_log l).
Qed.

(** *** The ledger a call produces *)

Lemma process_order_effect (o : Order) (l l' : Ledger) :
  process_order o l = (l', Ok tt) ->
  let s := ord_symbol o in
  let cost := ord_quantity o * ord_price o in
  let p' := settled o (position_before l s) in
  cash l' = (if ord_side o =? "BUY" then cash l - cost else cash l + cost)
  /\ positions l' = (if Qeq_bool (pos_quantity p') 0
                     then delete s (positions l)
                     else <[s := p']> (positions l))
  /\ trades_log l'
     = Some (default [] (trades_log l)
             ++ [[CStr (ord_timestamp o); CStr s; CStr (ord_side o);
                  CNum (ord_quantity o); CNum (ord_price o);
                  opt_cell (pos_stop_loss p'); opt_cell (pos_take_profit p');
                  CNum (cash l')]])%list.
Proof.
  intros Hrun s cost p'. subst s cost p'. unfold settled.
  rewrite process_order_phases in Hrun. cbv zeta in Hrun.
  destruct (Qle_bool (ord_quantity o) 0); [discriminate|].
  destruct (Qle_bool (ord_price o) 0); [discriminate|].
  apply bind_ok in Hrun as (l1 & pos0 & Hset & Hrun).
  rewrite setdefault_run in Hset. injection Hset as <- <-.
  apply bind_ok in Hrun as (l2 & pos1 & Htrade & Hrun).
  apply trade_phase_ok in Htrade as (-> & -> & _).
  apply bind_ok in Hrun as (l3 & [] & Hcheck & Hrun).
  apply stops_check_run in Hcheck as (-> & _).
  apply bind_ok in Hrun as (l4 & pos2 & Hstops & Hrun).
  rewrite stops_phase_run in Hstops by (simpl; apply lookup_insert_eq).
  injection Hstops as <- <-.
  apply bind_ok in Hrun as (l5 & [] & Hlog & Hrun).
  rewrite log_trade_run in Hlog. injection Hlog as <-.
  simpl in Hrun.
  destruct (Qeq_bool _ 0) eqn:Hz;
    unfold positions_pop, ret in Hrun; simpl in Hrun;
    injection Hrun as <-; simpl;
    rewrite ?insert_insert_eq, ?delete_insert_eq; done.
Qed.



(** *** Which orders are accepted *)




(** *** Well-formed positions *)










(** *** The trade log *)

Lemma settled_closed_no_stops (o : Order) (old : Position) :
  Qeq_bool (pos_quantity (settled o old)) 0 = true ->
  pos_stop_loss (settled o old) = None /\ pos_take_profit (settled o old) = None.
Proof.
  unfold settled, with_stops.
  destruct (Qgt_bool (pos_quantity (traded o old)) 0) eqn:Hpos; simpl; [|done].
  intros Hz. apply Qeq_bool_iff in Hz. apply Qlt_bool_true in Hpos. lra.
Qed.

(** The line appended by a call, or the log left alone. *)
Lemma process_order_log_row (o : Order) (l : Ledger) :
  match process_order o l with
  | (l', Ok _) =>
      trades_log l' = Some (default [] (trades_log l) ++ [log_row o l'])%list
  | (l', Raise _) => trades_log l' = trades_log l
  end.
Proof.
  destruct (process_order o l) as [l' [[]|e]] eqn:Hrun.
  - apply process_order_effect in Hrun as (_ & Hpos & Hlog).
    rewrite Hlog. unfold log_row. rewrite Hpos.
    destruct (Qeq_bool _ 0) eqn:Hz.
    + apply settled_closed_no_stops in Hz as [-> ->].
      by rewrite lookup_delete_eq.
    + by rewrite lookup_insert_eq.
  - by eapply process_order_raise_log.
Qed.

(** X3.  A call of [process_order] that returns normally appends exactly
    one line to the log, after the lines already there: the order's
    timestamp, symbol, side, quantity and price, the stop-loss and
    take-profit of the position as stored after the call (empty when the
    position was closed), and the cash after the call.  A call that
    raises leaves the log as it was. *)
Theorem process_order_log (o : Order) (l : Ledger) :
  match process_order o l with
  | (l', Ok _) =>
      trades_log l' = Some (default [] (trades_log l) ++ [log_row o l'])%list
  | (l', Raise _) => trades_log l' = trades_log l
  end.
Proof. exact (process_order_log_row o l). Qed.









(** *** How orders compose *)












(** *** What a call leaves alone *)

(** X9.  A call of [process_order], whether it returns or raises, leaves
    the position of every symbol other than the order's as it was. *)
Theorem other_symbols_untouched (o : Order) (l : Ledger) (s : string) :
  s <> ord_symbol o ->
  positions (fst (process_order o l)) !! s = positions l !! s.
Proof. apply process_order_frame. Qed.

Lemma other_symbols_untouched_witness :
  positions (fst (process_order (mkOrder "GAZP" "BUY" 1 100 None None "t3")
                    held_ledger)) !! "SBER"
  = positions held_ledger !! "SBER".
Proof.
  apply (other_symbols_untouched (mkOrder "GAZP" "BUY" 1 100 None None "t3")
           held_ledger "SBER").
  discriminate.
Defined.






End LedgerLawsProofs.

(** * Proofs: further properties of the report *)

Module ReportLawsProofs.
Import PaperTrader Reporting LedgerSpec LedgerLaws ReportLaws LedgerProofs.

(** *** Arithmetic of a fall *)

Lemma fall_pct_nonneg (peak value : Q) :
  0 < peak -> value <= peak -> 0 <= fall_pct peak value.
Proof.
  intros Hp Hv. unfold fall_pct.
  assert (0 <= (peak - value) / peak).
  { apply Qle_shift_div_l; [done | lra]. }
  lra.
Qed.

Lemma fall_pct_le_100 (peak value : Q) :
  0 < peak -> 0 <= value -> fall_pct peak value <= 100.
Proof.
  intros Hp Hv. unfold fall_pct.
  assert ((peak - value) / peak <= 1).
  { apply Qle_shift_div_r; [done | lra]. }
  lra.
Qed.

Lemma fall_pct_zero (peak value : Q) :
  0 < peak -> value == peak -> fall_pct peak value == 0.
Proof.
  intros Hp Hv. unfold fall_pct. rewrite Hv. field. lra.
Qed.


(** *** The running state of [_calculate_max_drawdown] *)

Lemma drawdown_step_mono (st : option Q * Q) (value : Q) :
  snd st <= snd (drawdown_step st value).
Proof.
  destruct st as [[peak|] md]; simpl; [|lra].
  destruct (Qgt_bool (if Qgt_bool value peak then value else peak) 0); simpl; [|lra].
  destruct (Qgt_bool _ md) eqn:Hgt; simpl; [|lra].
  apply Qlt_bool_true in Hgt. lra.
Qed.

Lemma drawdown_fold_mono (values : list Q) (st : option Q * Q) :
  snd st <= snd (fold_left drawdown_step values st).
Proof.
  revert st. induction values as [|v vs IH]; intros st; simpl; [lra|].
  pose proof (drawdown_step_mono st v). pose proof (IH (drawdown_step st v)). lra.
Qed.

Lemma drawdown_step_le_100 (st : option Q * Q) (value : Q) :
  0 <= value -> snd st <= 100 -> snd (drawdown_step st value) <= 100.
Proof.
  intros Hv Hmd. destruct st as [[peak|] md]; simpl in *; [|done].
  destruct (Qgt_bool (if Qgt_bool value peak then value else peak) 0) eqn:Hpk;
    simpl; [|done].
  destruct (Qgt_bool _ md); simpl; [|done].
  apply Qlt_bool_true in Hpk. by apply fall_pct_le_100.
Qed.

Lemma drawdown_fold_le_100 (values : list Q) (st : option Q * Q) :
  Forall (fun v => 0 <= v) values -> snd st <= 100 ->
  snd (fold_left drawdown_step values st) <= 100.
Proof.
  revert st. induction values as [|v vs IH]; intros st Hall Hmd; simpl; [done|].
  inversion Hall; subst. apply IH; [done|]. by apply drawdown_step_le_100.
Qed.

(** X12.  The maximum drawdown is never negative, and for a series
    without negative values it is at most 100 percent. *)
Theorem max_drawdown_bounds (values : list Q) :
  0 <= _calculate_max_drawdown values
  /\ (Forall (fun v => 0 <= v) values -> _calculate_max_drawdown values <= 100).
Proof.
  unfold _calculate_max_drawdown. split.
  - apply (drawdown_fold_mono values (None, 0)).
  - intros Hall. apply drawdown_fold_le_100; [done | simpl; lra].
Qed.

Lemma max_drawdown_bounds_witness :
  _calculate_max_drawdown [1000; 500; 900] <= 100.
Proof.
  apply (proj2 (max_drawdown_bounds [1000; 500; 900])).
  repeat constructor; vm_compute; discriminate.
Defined.

Lemma drawdown_fold_nondecreasing (values : list Q) (peak : Q) :
  nondecreasing_from peak values ->
  snd (fold_left drawdown_step values (Some peak, 0)) = 0.
Proof.
  revert peak. induction values as [|v vs IH]; intros peak Hnd; simpl; [done|].
  destruct Hnd as [Hle Hnd].
  destruct (Qgt_bool v peak) eqn:Hgt.
  - destruct (Qgt_bool v 0) eqn:Hpos; [|by apply IH].
    apply Qlt_bool_true in Hpos.
    assert (Qgt_bool ((v - v) / v * 100) 0 = false) as ->.
    { apply Qlt_bool_false. pose proof (fall_pct_zero v v Hpos). unfold fall_pct in *.
      assert (v == v) as Hvv by reflexivity. specialize (H Hvv). lra. }
    by apply IH.
  - apply Qlt_bool_false in Hgt.
    assert (nondecreasing_from peak vs) as Hnd'.
    { destruct vs as [|v' vs']; [done|]. destruct Hnd as [Hvv' Hnd].
      split; [lra | done]. }
    destruct (Qgt_bool peak 0) eqn:Hpos; [|by apply IH].
    apply Qlt_bool_true in Hpos.
    assert (Qgt_bool ((peak - v) / peak * 100) 0 = false) as ->.
    { apply Qlt_bool_false.
      assert (v == peak) as Hvp by lra.
      pose proof (fall_pct_zero peak v Hpos Hvp). unfold fall_pct in *. lra. }
    by apply IH.
Qed.

(** X13.  A series that never falls has maximum drawdown zero; so has
    the empty series and a series of one value. *)
Theorem max_drawdown_nondecreasing (values : list Q) :
  nondecreasing values -> _calculate_max_drawdown values = 0.
Proof.
  unfold _calculate_max_drawdown, nondecreasing.
  destruct values as [|v vs]; [done|]. simpl.
  apply drawdown_fold_nondecreasing.
Qed.

Lemma max_drawdown_nondecreasing_witness :
  _calculate_max_drawdown [1000; 1000; 1050] = 0.
Proof.
  apply (max_drawdown_nondecreasing [1000; 1000; 1050]).
  simpl. repeat split; vm_compute; discriminate.
Defined.

(** *** The drawdown dominates every fall *)






(** *** Reports *)






End ReportLawsProofs.

(** * Proofs: further properties of the client *)

Module ClientLawsProofs.
Import AlorClient ClientSpec ClientLaws ClientProofs.

(** *** Construction and REST *)

Lemma rstrip_slash_empty_iff (s : string) :
  rstrip_slash s = "" <-> all_slashes s = true.
Proof.
  induction s as [|c s IH]; simpl; [done|].
  destruct (String.eqb (rstrip_slash s) "") eqn:He.
  - apply String.eqb_eq in He. apply IH in He as Hs. rewrite Hs, andb_true_r.
    destruct (Ascii.eqb c "/"); simpl; split; try done.
  - apply String.eqb_neq in He.
    assert (all_slashes s = false) as ->.
    { apply not_true_iff_false. by rewrite <- IH. }
    rewrite andb_false_r. simpl. split; done.
Qed.

Lemma rstrip_slash_split (s : string) :
  exists tail, s = rstrip_slash s ++ tail /\ all_slashes tail = true.
Proof.
  induction s as [|c s (tail & Hs & Ht)]; simpl.
  - by exists "".
  - destruct (String.eqb (rstrip_slash s) "" && Ascii.eqb c "/") eqn:Hb.
    + apply andb_true_iff in Hb as [He Hc].
      apply String.eqb_eq in He. apply Ascii.eqb_eq in Hc. subst c.
      exists (String "/" s). split; [done|]. simpl.
      by apply rstrip_slash_empty_iff.
    + exists tail. split; [|done].
      change (String c s = String c (rstrip_slash s ++ tail)). congruence.
Qed.

Lemma rstrip_slash_last (s : string) :
  last_char (rstrip_slash s) <> Some "/"%char.
Proof.
  induction s as [|c s IH]; simpl; [done|].
  destruct (String.eqb (rstrip_slash s) "") eqn:He; simpl.
  - apply String.eqb_eq in He.
    destruct (Ascii.eqb c "/") eqn:Hc; simpl; [done|].
    rewrite He. simpl. apply Ascii.eqb_neq in Hc. congruence.
  - apply String.eqb_neq in He.
    destruct (rstrip_slash s) eqn:Hr; [done|]. exact IH.
Qed.

(** X17.  The constructor raises [AlorAuthError] exactly when the token
    is empty.  Otherwise the stored REST base URL is the given one with
    its whole run of trailing slashes removed: it does not end in a slash,
    and the given URL is it followed by slashes only. *)
Theorem client_init_base_url (token base_rest base_ws : string) (timeout : Z)
    (session : Request -> get_outcome) :
  (token = "" <->
   AlorClient_init token base_rest base_ws timeout session
   = Raise (AlorAuthError MsgTokenRequired))
  /\ (token <> "" ->
      exists self tail,
        AlorClient_init token base_rest base_ws timeout session = Ok self
        /\ _token self = token
        /\ base_rest = base_rest_url self ++ tail
        /\ all_slashes tail = true
        /\ last_char (base_rest_url self) <> Some "/"%char).
Proof.
  unfold AlorClient_init. split.
  - destruct (String.eqb token "") eqn:He.
    + apply String.eqb_eq in He. done.
    + apply String.eqb_neq in He. split; [done | discriminate].
  - intros Hne. apply String.eqb_neq in Hne. rewrite Hne.
    destruct (rstrip_slash_split base_rest) as (tail & Hs & Ht).
    eexists. exists tail. split; [reflexivity|]. simpl.
    repeat split; try done. apply rstrip_slash_last.
Qed.

Lemma client_init_base_url_witness :
  exists self tail,
    AlorClient_init "test-token" "https://example.com//" "wss://example.com" 10
      (fun _ => GetRaises "down") = Ok self
    /\ _token self = "test-token"
    /\ "https://example.com//" = base_rest_url self ++ tail
    /\ all_slashes tail = true
    /\ last_char (base_rest_url self) <> Some "/"%char.
Proof.
  apply (proj2 (client_init_base_url "test-token" "https://example.com//"
                  "wss://example.com" 10 (fun _ => GetRaises "down"))).
  discriminate.
Defined.

(** X18.  [get_order_book] returns the decoded body of the response,
    whatever JSON value it is, exactly when the session returns a
    response that is [ok], does not have status 401 and has a JSON body.
    Every exception it raises is in the [AlorAPIError] family:
    [AlorConnectionError] exactly when the request failed, [AlorAuthError]
    exactly when the status is 401. *)
Theorem get_order_book_outcomes (self : AlorClient) (symbol exchange : string)
    (depth : Z) :
  let session_does := _session self (order_book_request self symbol exchange depth) in
  let result := get_order_book self symbol exchange depth in
  (forall body,
     result = Ok body <->
     exists r, session_does = GetReturns r /\ status_code r <> 401%Z
               /\ ok r = true /\ resp_json r = Some body)
  /\ (forall e,
        result = Raise e ->
        is_AlorAPIError e = true
        /\ (is_AlorConnectionError e = true <-> exists detail, session_does = GetRaises detail)
        /\ (is_AlorAuthError e = true <->
            exists r, session_does = GetReturns r /\ status_code r = 401%Z)).
Proof.
  intros session_does result. subst session_does result.
  unfold get_order_book, _safe_get, _safe_json, order_book_request.
  destruct (_session self _) as [detail | r].
  { split.
    - intros body. split; [discriminate | by intros (r & [=] & _)].
    - intros e [= <-]. simpl. repeat split; eauto; try discriminate.
      by intros (r & [=] & _). }
  destruct (status_code r =? 401)%Z eqn:H401.
  { apply Z.eqb_eq in H401. split.
    - intros body. split; [discriminate|]. intros (r' & [= <-] & Hne & _). done.
    - intros e [= <-]. simpl. repeat split; eauto; try discriminate.
      by intros (d & [=]). }
  apply Z.eqb_neq in H401.
  destruct (ok r) eqn:Hok; simpl.
  2: { split.
    - intros body. split; [discriminate|].
      intros (r' & [= <-] & _ & Hok' & _). congruence.
    - intros e [= <-]. simpl. repeat split; try done; try discriminate.
      + by intros (d & [=]).
      + intros (r' & [= <-] & Heq). done. }
  destruct (resp_json r) as [body0|] eqn:Hjson.
  - split.
    + intros body. split.
      * intros [= <-]. eauto 10.
      * intros (r' & [= <-] & _ & _ & Hj). congruence.
    + discriminate.
  - split.
    + intros body. split; [discriminate|].
      intros (r' & [= <-] & _ & _ & Hj). congruence.
    + intros e [= <-]. simpl. repeat split; try done; try discriminate.
      * by intros (d & [=]).
      * intros (r' & [= <-] & Heq). done.
Qed.

Lemma get_order_book_outcomes_witness :
  get_order_book (mock_client (mkResponse 200 true "null" (Some JNull)))
    "SBER" "MOEX" 10
  = Ok JNull.
Proof.
  apply (proj1 (get_order_book_outcomes
                  (mock_client (mkResponse 200 true "null" (Some JNull)))
                  "SBER" "MOEX" 10)).
  eexists. repeat split; discriminate.
Defined.

(** *** Frames *)

Section Frames.

Variable utf8_decode : string -> option string.
Variable json_loads : string -> option json.

(** X19.  [_parse_ws_message] returns a payload only when the text of
    the frame decodes to it and it is a JSON object without the
    unauthorized status; it raises [AlorAuthError] exactly when the text
    decodes to an object with that status; every other exception it
    raises is a plain [AlorAPIError] or the decoding error of a binary
    frame, never a websocket exception. *)
Theorem parse_ws_message_outcomes (raw : raw_message) :
  (forall payload,
     _parse_ws_message utf8_decode json_loads raw = Ok payload <->
     exists text, frame_text utf8_decode raw = Some text
                  /\ json_loads text = Some payload
                  /\ well_formed_payload payload)
  /\ (forall e,
        _parse_ws_message utf8_decode json_loads raw = Raise e ->
        is_WebSocketException e = false
        /\ (is_AlorAuthError e = true <->
            exists text payload,
              frame_text utf8_decode raw = Some text
              /\ json_loads text = Some payload
              /\ isinstance_dict payload = true
              /\ unauthorized payload = true)).
Proof.
  unfold _parse_ws_message, well_formed_payload, frame_text.
  assert (forall text,
            (match raw with
             | RawStr s => Some s
             | RawBytes b => utf8_decode b
             end) = Some text ->
            (match raw with
             | RawBytes b =>
                 match utf8_decode b with
                 | Some s => Ok s
                 | None => Raise (OtherException "UnicodeDecodeError")
                 end
             | RawStr s => Ok s
             end) = Ok text) as Hsome.
  { intros text. destruct raw as [s|b]; [by intros [= ->]|].
    by destruct (utf8_decode b); intros [= ->]. }
  destruct (match raw with RawStr s => Some s | RawBytes b => utf8_decode b end)
    as [text|] eqn:Htext.
  2: { assert ((match raw with
                | RawBytes b =>
                    match utf8_decode b with
                    | Some s => Ok s
                    | None => Raise (OtherException "UnicodeDecodeError")
                    end
                | RawStr s => Ok s
                end) = Raise (OtherException "UnicodeDecodeError")) as ->.
       { destruct raw as [s|b]; [discriminate|]. by rewrite Htext. }
       split.
       - intros p. split; [discriminate | by intros (t & [=] & _)].
       - intros e [= <-]. split; [done|]. split; [discriminate|].
         by intros (t & p & [=] & _). }
  rewrite (Hsome text eq_refl).
  destruct (json_loads text) as [p|] eqn:Hload.
  2: { split.
       - intros p. split; [discriminate|]. intros (t & [= <-] & Hl & _). congruence.
       - intros e [= <-]. split; [done|]. split; [discriminate|].
         intros (t & p & [= <-] & Hl & _). congruence. }
  assert (equals_401 (match p with
                      | JObj members => dict_get "status" members
                      | _ => JNull
                      end) = unauthorized p) as ->.
  { by destruct p. }
  destruct (isinstance_dict p) eqn:Hd, (unauthorized p) eqn:Hu; simpl.
  - split.
    + intros p'. split; [discriminate|].
      intros (t & [= <-] & Hl & _ & Hu'). congruence.
    + intros e [= <-]. split; [done|]. split; [eauto 10 | done].
  - split.
    + intros p'. split; [intros [= <-]; eauto 10|].
      intros (t & [= <-] & Hl & _). congruence.
    + discriminate.
  - by destruct p.
  - split.
    + intros p'. split; [discriminate|].
      intros (t & [= <-] & Hl & Hd' & _). congruence.
    + intros e [= <-]. split; [done|]. split; [discriminate|].
      intros (t & p' & [= <-] & Hl & Hd' & _). congruence.
Qed.

Lemma parse_ok_well_formed (raw : raw_message) (payload : json) :
  _parse_ws_message utf8_decode json_loads raw = Ok payload ->
  well_formed_payload payload.
Proof.
  intros H.
  unfold _parse_ws_message in H.
  destruct (match raw with
            | RawBytes _ => _
            | RawStr _ => _
            end) as [s|]; [|discriminate].
  destruct (json_loads s) as [p|]; [|discriminate].
  destruct (isinstance_dict p) eqn:Hd; simpl in H; [|discriminate].
  destruct p; try discriminate. simpl in H.
  destruct (equals_401 _) eqn:Hu; [discriminate|].
  injection H as <-. split; [done|]. exact Hu.
Qed.

Lemma parse_raise_not_websocket (raw : raw_message) (e : exn) :
  _parse_ws_message utf8_decode json_loads raw = Raise e ->
  is_WebSocketException e = false.
Proof.
  intros H. unfold _parse_ws_message in H.
  destruct raw as [s|b].
  - destruct (json_loads s) as [p|]; [|by injection H as <-].
    destruct (_ && _); [by injection H as <-|].
    destruct (negb _); [by injection H as <- | discriminate].
  - destruct (utf8_decode b) as [s|]; [|by injection H as <-].
    destruct (json_loads s) as [p|]; [|by injection H as <-].
    destruct (_ && _); [by injection H as <-|].
    destruct (negb _); [by injection H as <- | discriminate].
Qed.

End Frames.

Lemma parse_ws_message_outcomes_witness :
  _parse_ws_message toy_decode toy_loads (RawBytes "{}") = Ok quote.
Proof.
  apply (proj1 (parse_ws_message_outcomes toy_decode toy_loads (RawBytes "{}"))).
  exists "{}". repeat split; reflexivity.
Defined.

(** *** What a subscription leaves in its log *)

Section Subscriptions.

Variable utf8_decode : string -> option string.
Variable json_loads : string -> option json.
Variables symbol exchange : string.
Variable cb : callback.
Variable reconnect_attempts : Z.
Variable reconnect_delay : Q.
Variable max_messages : option Z.

Local Abbreviation receive := (receive_loop utf8_decode json_loads cb max_messages).
Local Abbreviation body := (try_body utf8_decode json_loads symbol exchange cb max_messages).
Local Abbreviation loop := (subscribe_loop utf8_decode json_loads symbol exchange cb
                    reconnect_attempts reconnect_delay max_messages).

(** The receive loop only hands payloads to the callback. *)
Lemma receive_loop_log (events : list recv_event) (received : Z) (tr : stream_log) :
  exists payloads,
    snd (receive events received tr) = log_dispatches payloads tr
    /\ Forall well_formed_payload payloads.
Proof.
  revert received tr. induction events as [|ev events IH]; intros received tr.
  - exists []. by rewrite log_dispatches_nil.
  - simpl. destruct ev as [raw|e].
    2: { exists []. by rewrite log_dispatches_nil. }
    destruct (_parse_ws_message utf8_decode json_loads raw) as [p|e] eqn:Hparse.
    2: { exists []. by rewrite log_dispatches_nil. }
    apply parse_ok_well_formed in Hparse.
    rewrite (dispatch_log cb).
    destruct (call cb (dispatched tr) p) as [e|].
    { exists [p]. split; [|by constructor]. simpl.
      by rewrite <- (log_dispatches_cons p [] tr), log_dispatches_nil. }
    destruct (reached max_messages (received + 1)).
    { exists [p]. split; [|by constructor]. simpl.
      by rewrite <- (log_dispatches_cons p [] tr), log_dispatches_nil. }
    destruct (IH (received + 1)%Z (log_dispatch p tr)) as (ps & -> & Hps).
    exists (p :: ps). split; [by rewrite log_dispatches_cons | by constructor].
Qed.

Lemma try_body_log (c : connection) (tr : stream_log) :
  exists payloads,
    Forall well_formed_payload payloads
    /\ (snd (body c tr) = tr /\ payloads = []
        \/ snd (body c tr)
           = log_dispatches payloads (log_send (subscribe_message symbol exchange) tr)).
Proof.
  unfold try_body.
  destruct (on_enter c); [exists []; split; [constructor | by left]|].
  destruct (on_send c); [exists []; split; [constructor | by left]|].
  destruct (receive_loop_log (frames c) 0
              (log_send (subscribe_message symbol exchange) tr)) as (ps & Hps & Hwf).
  exists ps. split; [done | by right].
Qed.

Lemma subscribe_loop_log (conns : list connection) (attempts : Z) (tr : stream_log) :
  exists (k : nat) payloads frames_sent,
    snd (loop conns attempts tr)
    = mkStreamLog (sent_frames tr ++ frames_sent) (dispatched tr ++ payloads)
        (sleeps tr ++ replicate k reconnect_delay)
    /\ Forall well_formed_payload payloads
    /\ (Z.of_nat k <= Z.max 0 (reconnect_attempts - attempts))%Z
    /\ (length frames_sent <= k + 1)%nat
    /\ ((reconnect_attempts < attempts)%Z -> frames_sent = []).
Proof.
  revert attempts tr. induction conns as [|c conns IH]; intros attempts tr.
  - exists 0%nat, [], []. simpl.
    destruct (attempts <=? reconnect_attempts)%Z; simpl;
      rewrite !app_nil_r; destruct tr; repeat split; try done; lia.
  - simpl. destruct (attempts <=? reconnect_attempts)%Z eqn:Hatt.
    2: { exists 0%nat, [], []. simpl. rewrite !app_nil_r.
         destruct tr; repeat split; try done; lia. }
    apply Z.leb_le in Hatt.
    destruct (try_body_log c tr) as (ps & Hwf & Hbody).
    assert (exists sent, snd (body c tr)
                         = mkStreamLog (sent_frames tr ++ sent)
                             (dispatched tr ++ ps) (sleeps tr)
                         /\ (length sent <= 1)%nat) as (sent & Htr & Hsent).
    { destruct Hbody as [[-> ->] | ->].
      - exists []. rewrite !app_nil_r. split; [by destruct tr | simpl; lia].
      - exists [subscribe_message symbol exchange]. split; [done | simpl; lia]. }
    destruct (body c tr) as [out tr'] eqn:Hrun. simpl in Htr. subst tr'.
    destruct out as [|e|].
    + exists 0%nat, ps, sent. simpl. rewrite app_nil_r.
      repeat split; try done; lia.
    + destruct (is_WebSocketException e).
      * destruct (reconnect_attempts <? attempts + 1)%Z eqn:Hlast.
        { exists 0%nat, ps, sent. simpl. rewrite app_nil_r.
          repeat split; try done; lia. }
        apply Z.ltb_ge in Hlast.
        destruct (IH (attempts + 1)%Z
                    (log_sleep reconnect_delay
                       (mkStreamLog (sent_frames tr ++ sent) (dispatched tr ++ ps)
                          (sleeps tr))))
          as (k & ps' & sent' & Hloop & Hwf' & Hk & Hlen & _).
        exists (S k), (ps ++ ps')%list, (sent ++ sent')%list.
        rewrite Hloop. simpl.
        rewrite <- !app_assoc. simpl.
        repeat split; try done.
        -- by apply Forall_app.
        -- lia.
        -- rewrite length_app. lia.
        -- lia.
      * exists 0%nat, ps, sent. simpl. rewrite app_nil_r.
        destruct (is_AlorAuthError e); simpl; repeat split; try done; lia.
    + exists 0%nat, ps, sent. simpl. rewrite app_nil_r.
      repeat split; try done; lia.
Qed.

(** X20.  Whatever the server sends and however the subscription ends,
    every payload that [subscribe_quotes] has handed to the callback is a
    JSON object that does not carry the unauthorized status. *)
Theorem callback_sees_well_formed (conns : list connection) :
  Forall well_formed_payload
    (dispatched (snd (subscribe_quotes utf8_decode json_loads symbol exchange cb
                        reconnect_attempts reconnect_delay max_messages conns))).
Proof.
  unfold subscribe_quotes.
  destruct (subscribe_loop_log conns 0 empty_log) as (k & ps & sent & -> & Hwf & _).
  done.
Qed.

(** X21.  A call of [subscribe_quotes] sleeps at most [reconnect_attempts]
    times (never, when that is negative), each time for exactly
    [reconnect_delay], and sends at most one subscription frame more than
    it slept; with a negative [reconnect_attempts] it sends none. *)
Theorem reconnects_are_bounded (conns : list connection) :
  let tr := snd (subscribe_quotes utf8_decode json_loads symbol exchange cb
                   reconnect_attempts reconnect_delay max_messages conns) in
  exists k : nat,
    sleeps tr = replicate k reconnect_delay
    /\ (Z.of_nat k <= Z.max 0 reconnect_attempts)%Z
    /\ (length (sent_frames tr) <= k + 1)%nat
    /\ ((reconnect_attempts < 0)%Z -> sent_frames tr = []).
Proof.
  intros tr. subst tr. unfold subscribe_quotes.
  destruct (subscribe_loop_log conns 0 empty_log)
    as (k & ps & sent & -> & _ & Hk & Hlen & Hneg).
  exists k. simpl. rewrite Z.sub_0_r in Hk. repeat split; try done.
Qed.

(** *** Which failures end a subscription at once *)

Lemma fatal_in_body (c : connection) (rest : list connection) (attempts : Z)
    (tr tr' : stream_log) (e : exn) :
  (attempts <= reconnect_attempts)%Z ->
  body c tr = (BodyRaises e, tr') ->
  is_WebSocketException e = false ->
  loop (c :: rest) attempts tr = (Raised (surfaced e), tr').
Proof.
  intros Hatt Hbody Hws. simpl.
  replace (attempts <=? reconnect_attempts)%Z with true by lia.
  rewrite Hbody, Hws. unfold surfaced. by destruct (is_AlorAuthError e).
Qed.

(** X23.  A frame that cannot be decoded, is not JSON, is not a JSON
    object or carries the unauthorized status ends the subscription at
    once, whatever number of reconnect attempts is left: the callback is
    not called for it, nothing is slept, and the caller gets the
    [AlorAuthError] itself for the unauthorized status and an
    [AlorAPIError] wrapping the error otherwise. *)
Theorem bad_frame_is_fatal (c : connection) (rest : list connection)
    (attempts : Z) (tr : stream_log) (raws : list raw_message)
    (payloads : list json) (raw : raw_message) (more : list recv_event)
    (e : exn) :
  (attempts <= reconnect_attempts)%Z ->
  on_enter c = None ->
  on_send c = None ->
  frames c = (map RecvMessage raws ++ RecvMessage raw :: more)%list ->
  delivered utf8_decode json_loads cb (dispatched tr) raws payloads ->
  (forall k : Z, (1 <= k <= Z.of_nat (length raws))%Z ->
                 reached max_messages k = false) ->
  _parse_ws_message utf8_decode json_loads raw = Raise e ->
  loop (c :: rest) attempts tr
  = (Raised (surfaced e),
     log_dispatches payloads (log_send (subscribe_message symbol exchange) tr)).
Proof.
  intros Hatt Henter Hsend Hframes Hdel Hlimit Hparse.
  apply fatal_in_body; [done | | by eapply parse_raise_not_websocket].
  unfold try_body. rewrite Henter, Hsend, Hframes.
  rewrite (receive_loop_delivered utf8_decode json_loads cb max_messages
             raws payloads); [|exact Hdel|].
  - simpl. by rewrite Hparse.
  - intros k Hk. rewrite Z.add_0_l. by apply Hlimit.
Qed.

(** X24.  An exception raised while connecting or while sending the
    subscription frame that is not a websocket exception (an [OSError],
    say) is not retried: the call ends at once without sleeping, with the
    [AlorAuthError] itself or with an [AlorAPIError] wrapping the error. *)
Theorem connect_failure_not_retried (c : connection) (rest : list connection)
    (attempts : Z) (tr : stream_log) (e : exn) :
  (attempts <= reconnect_attempts)%Z ->
  on_enter c = Some e \/ (on_enter c = None /\ on_send c = Some e) ->
  is_WebSocketException e = false ->
  loop (c :: rest) attempts tr = (Raised (surfaced e), tr).
Proof.
  intros Hatt Hfail Hws. apply fatal_in_body; [done | | done].
  unfold try_body. destruct Hfail as [-> | [-> ->]]; reflexivity.
Qed.

(** *** Reconnecting *)

Lemma body_keeps_sleeps (c : connection) (tr : stream_log) :
  sleeps (snd (body c tr)) = sleeps tr.
Proof.
  destruct (try_body_log c tr) as (ps & _ & [[-> _] | ->]); done.
Qed.

Lemma all_drop (conns : list connection) (attempts : Z) (tr : stream_log) :
  (attempts <= reconnect_attempts)%Z ->
  (Z.to_nat (reconnect_attempts - attempts) < length conns)%nat ->
  Forall (drops utf8_decode json_loads symbol exchange cb max_messages) conns ->
  fst (loop conns attempts tr) = Raised (AlorConnectionError MsgNotRestored)
  /\ sleeps (snd (loop conns attempts tr))
     = (sleeps tr
        ++ replicate (Z.to_nat (reconnect_attempts - attempts)) reconnect_delay)%list.
Proof.
  revert attempts tr. induction conns as [|c conns IH];
    intros attempts tr Hatt Hlen Hall; simpl in Hlen; [lia|].
  inversion Hall as [|? ? Hc Hrest]; subst.
  destruct (Hc tr) as (e & tr' & Hbody & Hws).
  pose proof (body_keeps_sleeps c tr) as Hsl. rewrite Hbody in Hsl. simpl in Hsl.
  simpl. replace (attempts <=? reconnect_attempts)%Z with true by lia.
  rewrite Hbody, Hws.
  destruct (reconnect_attempts <? attempts + 1)%Z eqn:Hlast.
  - apply Z.ltb_lt in Hlast.
    replace (reconnect_attempts - attempts)%Z with 0%Z by lia. simpl.
    by rewrite app_nil_r.
  - apply Z.ltb_ge in Hlast.
    destruct (IH (attempts + 1)%Z (log_sleep reconnect_delay tr')) as [Hout Hsleeps];
      [lia | lia | done |].
    split; [exact Hout|]. rewrite Hsleeps. simpl. rewrite Hsl.
    replace (Z.to_nat (reconnect_attempts - attempts))
      with (S (Z.to_nat (reconnect_attempts - (attempts + 1)))) by lia.
    simpl. by rewrite <- app_assoc.
Qed.

(** X25.  When each of the first [reconnect_attempts + 1] connections is
    lost to a websocket exception, [subscribe_quotes] raises
    [AlorConnectionError] after sleeping exactly [reconnect_attempts]
    times for [reconnect_delay]. *)
Theorem retries_exhausted (conns : list connection) :
  (0 <= reconnect_attempts)%Z ->
  (Z.to_nat reconnect_attempts < length conns)%nat ->
  Forall (drops utf8_decode json_loads symbol exchange cb max_messages) conns ->
  let run := subscribe_quotes utf8_decode json_loads symbol exchange cb
               reconnect_attempts reconnect_delay max_messages conns in
  fst run = Raised (AlorConnectionError MsgNotRestored)
  /\ sleeps (snd run) = replicate (Z.to_nat reconnect_attempts) reconnect_delay.
Proof.
  intros Hra Hlen Hall run. subst run. unfold subscribe_quotes.
  destruct (all_drop conns 0 empty_log) as [Hout Hsleeps]; try done.
  - by rewrite Z.sub_0_r.
  - rewrite Z.sub_0_r in Hsleeps. done.
Qed.

(** X26.  The message limit counts the messages of one connection only.
    When a connection is lost to a websocket exception after delivering
    [k] messages, fewer than the limit [n], and the next connection
    delivers [n] messages, the call returns after the callback has been
    given all [k + n] payloads, having slept once and subscribed twice. *)
Theorem limit_counts_per_connection (n : Z) (c1 c2 : connection)
    (rest : list connection) (raws1 raws2 : list raw_message)
    (payloads1 payloads2 : list json) (more1 more2 : list recv_event) (e : exn) :
  (1 <= reconnect_attempts)%Z ->
  (Z.of_nat (length raws1) < n)%Z ->
  on_enter c1 = None -> on_send c1 = None ->
  frames c1 = (map RecvMessage raws1 ++ RecvRaises e :: more1)%list ->
  is_WebSocketException e = true ->
  delivered utf8_decode json_loads cb [] raws1 payloads1 ->
  on_enter c2 = None -> on_send c2 = None ->
  frames c2 = (map RecvMessage raws2 ++ more2)%list ->
  Z.of_nat (length raws2) = n ->
  delivered utf8_decode json_loads cb payloads1 raws2 payloads2 ->
  subscribe_quotes utf8_decode json_loads symbol exchange cb reconnect_attempts
    reconnect_delay (Some n) (c1 :: c2 :: rest)
  = (Returned,
     mkStreamLog [subscribe_message symbol exchange; subscribe_message symbol exchange]
       (payloads1 ++ payloads2) [reconnect_delay]).
Proof.
  intros Hra Hk He1 Hs1 Hf1 Hws Hd1 He2 Hs2 Hf2 Hn Hd2.
  unfold subscribe_quotes.
  assert (try_body utf8_decode json_loads symbol exchange cb (Some n) c1 empty_log
          = (BodyRaises e,
             log_dispatches payloads1
               (log_send (subscribe_message symbol exchange) empty_log))) as Hbody.
  { unfold try_body. rewrite He1, Hs1, Hf1.
    rewrite (receive_loop_delivered utf8_decode json_loads cb (Some n)
               raws1 payloads1); [done | exact Hd1 |].
    intros k Hkk. simpl. apply Z.leb_gt. lia. }
  change (subscribe_loop utf8_decode json_loads symbol exchange cb
            reconnect_attempts reconnect_delay (Some n) (c1 :: c2 :: rest) 0 empty_log)
    with (if (0 <=? reconnect_attempts)%Z
          then match try_body utf8_decode json_loads symbol exchange cb (Some n)
                       c1 empty_log with
               | (BodyReturns, tr') => (Returned, tr')
               | (BodyBlocked, tr') => (Blocked, tr')
               | (BodyRaises e, tr') =>
                   if is_WebSocketException e then
                     if (reconnect_attempts <? 0 + 1)%Z
                     then (Raised (AlorConnectionError MsgNotRestored), tr')
                     else subscribe_loop utf8_decode json_loads symbol exchange cb
                            reconnect_attempts reconnect_delay (Some n) (c2 :: rest)
                            (0 + 1) (log_sleep reconnect_delay tr')
                   else if is_AlorAuthError e then (Raised e, tr')
                   else (Raised (AlorAPIError (MsgUnhandled e)), tr')
               end
          else (Returned, empty_log)).
  replace (0 <=? reconnect_attempts)%Z with true by lia.
  rewrite Hbody, Hws.
  replace (reconnect_attempts <? 0 + 1)%Z with false by lia.
  rewrite (subscribe_loop_max_messages utf8_decode json_loads symbol exchange cb
             reconnect_attempts reconnect_delay n c2 rest raws2 payloads2 more2).
  - unfold log_dispatches, log_sleep, log_send, empty_log. simpl. reflexivity.
  - lia.
  - lia.
  - exact He2.
  - exact Hs2.
  - exact Hf2.
  - exact Hn.
  - exact Hd2.
Qed.

(** X27.  A message limit of zero or less does not stop the callback
    from being called: the first message delivered is handed to it, and
    only then does the call return. *)
Theorem nonpositive_limit_passes_one (n : Z) (c : connection)
    (rest : list connection) (raw : raw_message) (payload : json)
    (more : list recv_event) :
  (0 <= reconnect_attempts)%Z ->
  (n <= 0)%Z ->
  on_enter c = None -> on_send c = None ->
  frames c = RecvMessage raw :: more ->
  _parse_ws_message utf8_decode json_loads raw = Ok payload ->
  call cb [] payload = None ->
  subscribe_quotes utf8_decode json_loads symbol exchange cb reconnect_attempts
    reconnect_delay (Some n) (c :: rest)
  = (Returned, mkStreamLog [subscribe_message symbol exchange] [payload] []).
Proof.
  intros Hra Hn Henter Hsend Hframes Hparse Hcall.
  unfold subscribe_quotes. simpl.
  replace (0 <=? reconnect_attempts)%Z with true by lia.
  unfold try_body. rewrite Henter, Hsend, Hframes. simpl.
  rewrite Hparse, (dispatch_log cb). simpl. rewrite Hcall.
  replace (n <=? 0 + 1)%Z with true by lia. reflexivity.
Qed.

End Subscriptions.

Lemma callback_sees_well_formed_witness :
  Forall well_formed_payload
    (dispatched (snd (subscribe_quotes toy_decode toy_loads "SBER" "MOEX"
                        quiet_callback 3 1 (Some 1%Z) [one_frame]))).
Proof.
  apply (callback_sees_well_formed toy_decode toy_loads "SBER" "MOEX"
           quiet_callback 3 1 (Some 1%Z) [one_frame]).
Defined.

Lemma reconnects_are_bounded_witness :
  sent_frames (snd (subscribe_quotes toy_decode toy_loads "SBER" "MOEX"
                      quiet_callback (-1) 1 None [one_frame])) = [].
Proof.
  destruct (reconnects_are_bounded toy_decode toy_loads "SBER" "MOEX"
              quiet_callback (-1) 1 None [one_frame]) as (k & _ & _ & _ & Hneg).
  apply Hneg. lia.
Defined.

Lemma bad_frame_is_fatal_witness :
  subscribe_loop toy_decode (fun _ => Some unauthorized_frame) "SBER" "MOEX"
    quiet_callback 3 1 None [one_frame] 0 empty_log
  = (Raised (AlorAuthError MsgFrameUnauthorized),
     mkStreamLog [subscribe_message "SBER" "MOEX"] [] []).
Proof.
  apply (bad_frame_is_fatal toy_decode (fun _ => Some unauthorized_frame)
           "SBER" "MOEX" quiet_callback 3 1 None one_frame [] 0 empty_log
           [] [] (RawStr "{}") [] (AlorAuthError MsgFrameUnauthorized)).
  - lia.
  - reflexivity.
  - reflexivity.
  - reflexivity.
  - simpl. exact I.
  - simpl. lia.
  - reflexivity.
Defined.

Lemma connect_failure_not_retried_witness :
  subscribe_loop toy_decode toy_loads "SBER" "MOEX" quiet_callback 3 1 None
    [mkConnection (Some (OtherException "OSError")) None []] 0 empty_log
  = (Raised (AlorAPIError (MsgUnhandled (OtherException "OSError"))), empty_log).
Proof.
  apply (connect_failure_not_retried toy_decode toy_loads "SBER" "MOEX"
           quiet_callback 3 1 None
           (mkConnection (Some (OtherException "OSError")) None []) [] 0 empty_log
           (OtherException "OSError")).
  - lia.
  - left. reflexivity.
  - reflexivity.
Defined.

Lemma refused_drops :
  drops toy_decode toy_loads "SBER" "MOEX" quiet_callback None refused.
Proof. intros tr. exists ConnectionClosedError, tr. split; reflexivity. Qed.

Lemma retries_exhausted_witness :
  fst (subscribe_quotes toy_decode toy_loads "SBER" "MOEX" quiet_callback 2 1 None
         [refused; refused; refused])
  = Raised (AlorConnectionError MsgNotRestored)
  /\ sleeps (snd (subscribe_quotes toy_decode toy_loads "SBER" "MOEX"
                    quiet_callback 2 1 None [refused; refused; refused]))
     = replicate (Z.to_nat 2) 1.
Proof.
  apply (retries_exhausted toy_decode toy_loads "SBER" "MOEX" quiet_callback
           2 1 None [refused; refused; refused]).
  - lia.
  - simpl. lia.
  - repeat constructor; apply refused_drops.
Defined.

Lemma limit_counts_per_connection_witness :
  subscribe_quotes toy_decode toy_loads "SBER" "MOEX" quiet_callback 3 1 (Some 2%Z)
    [mkConnection None None [RecvMessage (RawStr "a"); RecvRaises ConnectionClosedError];
     mkConnection None None [RecvMessage (RawStr "b"); RecvMessage (RawStr "c")]]
  = (Returned,
     mkStreamLog [subscribe_message "SBER" "MOEX"; subscribe_message "SBER" "MOEX"]
       ([quote] ++ [quote; quote]) [1]).
Proof.
  apply (limit_counts_per_connection toy_decode toy_loads "SBER" "MOEX"
           quiet_callback 3 1 2
           (mkConnection None None
              [RecvMessage (RawStr "a"); RecvRaises ConnectionClosedError])
           (mkConnection None None
              [RecvMessage (RawStr "b"); RecvMessage (RawStr "c")])
           [] [RawStr "a"] [RawStr "b"; RawStr "c"] [quote] [quote; quote] [] []
           ConnectionClosedError).
  - lia.
  - simpl. lia.
  - reflexivity.
  - reflexivity.
  - reflexivity.
  - reflexivity.
  - simpl. repeat split; reflexivity.
  - reflexivity.
  - reflexivity.
  - reflexivity.
  - reflexivity.
  - simpl. repeat split; reflexivity.
Defined.

Lemma nonpositive_limit_passes_one_witness :
  subscribe_quotes toy_decode toy_loads "SBER" "MOEX" quiet_callback 3 1 (Some 0%Z)
    [one_frame]
  = (Returned, mkStreamLog [subscribe_message "SBER" "MOEX"] [quote] []).
Proof.
  apply (nonpositive_limit_passes_one toy_decode toy_loads "SBER" "MOEX"
           quiet_callback 3 1 0 one_frame [] (RawStr "{}") quote []).
  - lia.
  - lia.
  - reflexivity.
  - reflexivity.
  - reflexivity.
  - reflexivity.
  - reflexivity.
Defined.

End ClientLawsProofs.

(** * Proofs: the strategies *)

Module StrategiesProofs.
Import Strategies.
Local Open Scope list_scope.

(** [test_breakout_strategy_buy_signal]. *)
Example test_breakout_strategy_buy_signal :
  breakout_strategy
    (mkDataFrame ["high"; "low"; "close"]
       [candle 10 9 (95 # 10); candle 11 10 (105 # 10); candle 12 11 (115 # 10);
        candle 13 12 (125 # 10); candle 14 13 (135 # 10); candle 15 14 16])
    5 "close"
  = Ok BUY.
Proof. vm_compute. reflexivity. Qed.

(** *** Slices and positions *)

Lemma py_slice_window {A : Type} (older window : list A) (recent : A) :
  (1 <= length window)%nat ->
  py_slice (- (Z.of_nat (length window) + 1)) (-1) (older ++ window ++ [recent])
  = window.
Proof.
  intros Hw. unfold py_slice, slice_bound.
  rewrite !length_app. simpl length.
  replace (- (Z.of_nat (length window) + 1) <? 0)%Z with true by lia.
  replace (-1 <? 0)%Z with true by lia.
  replace (Z.to_nat (Z.max (Z.of_nat (length older + (length window + 1))
                            + - (Z.of_nat (length window) + 1)) 0))
    with (length older) by lia.
  replace (Z.to_nat (Z.max (Z.of_nat (length older + (length window + 1)) + -1) 0
                     - Z.max (Z.of_nat (length older + (length window + 1))
                              + - (Z.of_nat (length window) + 1)) 0))
    with (length window) by lia.
  rewrite drop_app_length. by rewrite take_app_length.
Qed.

Lemma iloc_back_last {A : Type} (xs : list A) (x : A) :
  iloc_back 1 (xs ++ [x]) = Ok x.
Proof.
  unfold iloc_back. rewrite length_app. simpl length.
  replace (length xs + 1 <? 1)%nat with false by (symmetry; apply Nat.ltb_ge; lia).
  replace (length xs + 1 - 1)%nat with (length xs) by lia.
  by rewrite list_lookup_middle.
Qed.

(** *** Maximum and minimum of a series *)

Lemma fold_pick_max (s : list float) (acc : float) :
  match fold_left pick_max s acc with
  | Some m =>
      (Some m ∈ s \/ acc = Some m)
      /\ (forall h, Some h ∈ s \/ acc = Some h -> h <= m)
  | None => acc = None /\ forall h, Some h ∉ s
  end.
Proof.
  revert acc. induction s as [|x s IH]; intros acc; simpl.
  - destruct acc as [a|].
    + split; [by right|]. intros h [Hin | [= <-]]; [by apply elem_of_nil in Hin | lra].
    + split; [done|]. intros h Hin. by apply elem_of_nil in Hin.
  - specialize (IH (pick_max acc x)).
    destruct (fold_left pick_max s (pick_max acc x)) as [m|].
    + destruct IH as [Hm Hub]. split.
      * destruct Hm as [Hm | Hm]; [left; apply elem_of_cons; by right|].
        destruct acc as [a|], x as [b|]; simpl in Hm; try done.
        -- injection Hm as <-.
           destruct (Qlt_bool a b); [left; apply elem_of_cons; by left | by right].
        -- by right.
        -- injection Hm as <-. left. apply elem_of_cons. by left.
      * intros h Hh. destruct Hh as [Hin | Hacc].
        -- apply elem_of_cons in Hin as [<- | Hin]; [|apply Hub; by left].
           destruct acc as [a|]; simpl in Hub.
           ++ destruct (Qlt_bool a h) eqn:Hlt.
              ** apply Hub. by right.
              ** assert (a <= m) by (apply Hub; by right).
                 apply not_true_iff_false in Hlt.
                 assert (h <= a); [|lra].
                 apply Qnot_lt_le. intros Hc. apply Hlt.
                 unfold Qlt_bool. apply negb_true_iff, not_true_iff_false.
                 rewrite Qle_bool_iff. lra.
           ++ apply Hub. by right.
        -- subst acc. destruct x as [b|]; simpl in Hub.
           ++ destruct (Qlt_bool h b) eqn:Hlt.
              ** assert (b <= m) by (apply Hub; by right).
                 unfold Qlt_bool in Hlt. apply negb_true_iff, not_true_iff_false in Hlt.
                 rewrite Qle_bool_iff in Hlt. lra.
              ** apply Hub. by right.
           ++ apply Hub. by right.
    + destruct IH as [Hacc Hnone].
      destruct acc as [a|], x as [b|]; simpl in Hacc; try done.
      split; [done|]. intros h Hin.
      apply elem_of_cons in Hin as [[=] | Hin]. by apply (Hnone h).
Qed.

Lemma fold_pick_min (s : list float) (acc : float) :
  match fold_left pick_min s acc with
  | Some m =>
      (Some m ∈ s \/ acc = Some m)
      /\ (forall h, Some h ∈ s \/ acc = Some h -> m <= h)
  | None => acc = None /\ forall h, Some h ∉ s
  end.
Proof.
  revert acc. induction s as [|x s IH]; intros acc; simpl.
  - destruct acc as [a|].
    + split; [by right|]. intros h [Hin | [= <-]]; [by apply elem_of_nil in Hin | lra].
    + split; [done|]. intros h Hin. by apply elem_of_nil in Hin.
  - specialize (IH (pick_min acc x)).
    destruct (fold_left pick_min s (pick_min acc x)) as [m|].
    + destruct IH as [Hm Hlb]. split.
      * destruct Hm as [Hm | Hm]; [left; apply elem_of_cons; by right|].
        destruct acc as [a|], x as [b|]; simpl in Hm; try done.
        -- injection Hm as <-.
           destruct (Qlt_bool b a); [left; apply elem_of_cons; by left | by right].
        -- by right.
        -- injection Hm as <-. left. apply elem_of_cons. by left.
      * intros h Hh. destruct Hh as [Hin | Hacc].
        -- apply elem_of_cons in Hin as [<- | Hin]; [|apply Hlb; by left].
           destruct acc as [a|]; simpl in Hlb.
           ++ destruct (Qlt_bool h a) eqn:Hlt.
              ** apply Hlb. by right.
              ** assert (m <= a) by (apply Hlb; by right).
                 unfold Qlt_bool in Hlt. apply negb_false_iff in Hlt.
                 apply Qle_bool_iff in Hlt. lra.
           ++ apply Hlb. by right.
        -- subst acc. destruct x as [b|]; simpl in Hlb.
           ++ destruct (Qlt_bool b h) eqn:Hlt.
              ** assert (m <= b) by (apply Hlb; by right).
                 unfold Qlt_bool in Hlt. apply negb_true_iff, not_true_iff_false in Hlt.
                 rewrite Qle_bool_iff in Hlt. lra.
              ** apply Hlb. by right.
           ++ apply Hlb. by right.
    + destruct IH as [Hacc Hnone].
      destruct acc as [a|], x as [b|]; simpl in Hacc; try done.
      split; [done|]. intros h Hin.
      apply elem_of_cons in Hin as [[=] | Hin]. by apply (Hnone h).
Qed.

Lemma float_gt_series_max (c : float) (s : list float) :
  float_gt c (series_max s) = true <->
  exists v, c = Some v /\ (exists h, Some h ∈ s) /\ forall h, Some h ∈ s -> h < v.
Proof.
  unfold series_max. pose proof (fold_pick_max s None) as Hmax.
  destruct (fold_left pick_max s None) as [m|]; destruct c as [v|]; simpl.
  - destruct Hmax as [[Hin | [=]] Hub].
    unfold Qlt_bool. rewrite negb_true_iff, <- not_true_iff_false, Qle_bool_iff.
    split.
    + intros Hlt. exists v. split; [done|]. split; [eauto|].
      intros h Hh. assert (h <= m) by (apply Hub; by left). lra.
    + intros (v' & [= <-] & _ & Hall). specialize (Hall m Hin). lra.
  - split; [done | by intros (v & [=] & _)].
  - destruct Hmax as [_ Hnone]. split; [done|].
    intros (v' & _ & (h & Hh) & _). by apply Hnone in Hh.
  - split; [done | by intros (v & [=] & _)].
Qed.

Lemma float_lt_series_min (c : float) (s : list float) :
  float_lt c (series_min s) = true <->
  exists v, c = Some v /\ (exists h, Some h ∈ s) /\ forall h, Some h ∈ s -> v < h.
Proof.
  unfold series_min, float_lt. pose proof (fold_pick_min s None) as Hmin.
  destruct (fold_left pick_min s None) as [m|]; destruct c as [v|]; simpl.
  - destruct Hmin as [[Hin | [=]] Hlb].
    unfold Qlt_bool. rewrite negb_true_iff, <- not_true_iff_false, Qle_bool_iff.
    split.
    + intros Hlt. exists v. split; [done|]. split; [eauto|].
      intros h Hh. assert (m <= h) by (apply Hlb; by left). lra.
    + intros (v' & [= <-] & _ & Hall). specialize (Hall m Hin). lra.
  - split; [done | by intros (v & [=] & _)].
  - destruct Hmin as [_ Hnone]. split; [done|].
    intros (v' & _ & (h & Hh) & _). by apply Hnone in Hh.
  - split; [done | by intros (v & [=] & _)].
Qed.

(** *** Breakout *)

(** The labels of the error come sorted, whichever the price column. *)
Example missing_columns_sorted :
  missing_columns (mkDataFrame ["open"] []) ["volume"; "high"; "low"]
  = ["high"; "low"; "volume"]
  /\ missing_columns (mkDataFrame ["open"] []) ["close"; "high"; "low"]
     = ["close"; "high"; "low"].
Proof. split; vm_compute; reflexivity. Qed.

Lemma missing_columns_none (candles : DataFrame) (required : list string) :
  Forall (fun name => name ∈ df_columns candles) required ->
  missing_columns candles required = [].
Proof.
  unfold missing_columns. intros Hall.
  assert (filter (fun name => name ∉ df_columns candles) required = []) as ->;
    [|done].
  induction Hall as [|name rest Hin Hall IH]; [done|].
  rewrite filter_cons, decide_False by (intros Hn; by apply Hn). exact IH.
Qed.

(** X28.  With the three columns present and more candles than the
    lookback (at least 1), [breakout_strategy] looks only at the latest
    candle's price and at the [lookback] candles just before it, the
    latest excluded: it answers BUY exactly when the price is a number
    above every high of those candles, SELL exactly when it is not so and
    the price is a number below every low of them, HOLD otherwise; NaN
    highs and lows are skipped, and at least one must be a number. *)
Theorem breakout_signal (columns : list string)
    (older window : list (string -> float)) (recent : string -> float)
    (lookback : Z) (price_column : string) :
  price_column ∈ columns -> "high" ∈ columns -> "low" ∈ columns ->
  (1 <= lookback)%Z ->
  Z.of_nat (length window) = lookback ->
  let result := breakout_strategy
                  (mkDataFrame columns (older ++ window ++ [recent]))
                  lookback price_column in
  let highs := (fun row => row "high") <$> window in
  let lows := (fun row => row "low") <$> window in
  let above := exists v, recent price_column = Some v
                         /\ (exists h, Some h ∈ highs)
                         /\ forall h, Some h ∈ highs -> h < v in
  let below := exists v, recent price_column = Some v
                         /\ (exists x, Some x ∈ lows)
                         /\ forall x, Some x ∈ lows -> v < x in
  (result = Ok BUY <-> above)
  /\ (result = Ok SELL <-> ~ above /\ below)
  /\ (result = Ok HOLD <-> ~ above /\ ~ below).
Proof.
  intros Hp Hh Hl Hlb Hlen. cbv zeta.
  unfold breakout_strategy.
  rewrite missing_columns_none by (repeat constructor; done).
  unfold df_len. simpl.
  rewrite !length_app. simpl length.
  assert ((Z.of_nat (length older + (length window + 1)) <=? lookback)%Z = false)
    as -> by (apply Z.leb_gt; clear -Hlen; lia).
  rewrite app_assoc, iloc_back_last, <- app_assoc.
  rewrite <- Hlen, py_slice_window by (clear -Hlen Hlb; lia).
  set (highs := (fun row : string -> float => row "high") <$> window).
  set (lows := (fun row : string -> float => row "low") <$> window).
  pose proof (float_gt_series_max (recent price_column) highs) as Hgt.
  pose proof (float_lt_series_min (recent price_column) lows) as Hlt.
  destruct (float_gt (recent price_column) (series_max highs)).
  { assert (exists v, recent price_column = Some v
                      /\ (exists h, Some h ∈ highs)
                      /\ forall h, Some h ∈ highs -> h < v) as Ha by (by apply Hgt).
    repeat split; try done; intros [Hna _]; done. }
  assert (~ exists v, recent price_column = Some v
                      /\ (exists h, Some h ∈ highs)
                      /\ forall h, Some h ∈ highs -> h < v) as Hna
    by (intros Ha; apply Hgt in Ha; done).
  destruct (float_lt (recent price_column) (series_min lows)).
  { assert (exists v, recent price_column = Some v
                      /\ (exists x, Some x ∈ lows)
                      /\ forall x, Some x ∈ lows -> v < x) as Hb by (by apply Hlt).
    repeat split; try done. intros [_ Hnb]; done. }
  assert (~ exists v, recent price_column = Some v
                      /\ (exists x, Some x ∈ lows)
                      /\ forall x, Some x ∈ lows -> v < x) as Hnb
    by (intros Hb; apply Hlt in Hb; done).
  repeat split; try done. intros [_ Hb]; done.
Qed.

Lemma breakout_signal_witness :
  breakout_strategy
    (mkDataFrame ["high"; "low"; "close"]
       ([candle 10 9 9] ++ [candle 11 10 10; candle 12 11 11] ++ [candle 15 14 16]))
    2 "close"
  = Ok BUY.
Proof.
  apply (proj1 (breakout_signal ["high"; "low"; "close"]
                  [candle 10 9 9] [candle 11 10 10; candle 12 11 11]
                  (candle 15 14 16) 2 "close"
                  ltac:(set_solver) ltac:(set_solver) ltac:(set_solver)
                  ltac:(lia) ltac:(reflexivity))).
  exists 16. split; [reflexivity|]. split.
  - exists 11. set_solver.
  - intros h Hin. simpl in Hin.
    apply elem_of_cons in Hin as [[= ->] | Hin]; [reflexivity|].
    apply elem_of_cons in Hin as [[= ->] | Hin]; [reflexivity|].
    by apply elem_of_nil in Hin.
Defined.

End StrategiesProofs.
